(** * fish.py: the expense-report compiler, the vendor directory and the
      pay-bill workflow of the Fi$h accounting CLI, embedded in Rocq.

    Python values are modelled as follows.
    - [str] is [string]; the operations below act on ASCII characters
      (code points above 127 are carried through unchanged).
    - [int] is [Z].
    - [float] is IEEE-754 binary64, modelled exactly on integers (see
      [float] below).
    - [dict] is a [gmap] when only lookups matter and an association list
      when the iteration order matters.
    - exceptions, [sys.exit] and the remote service are explicit: a
      command is a function on a [world] that returns an [outcome]. *)

From Stdlib Require Import ZArith List Bool Ascii String Lia.
From stdpp Require Import base option gmap strings.

Import ListNotations.
Local Open Scope string_scope.
Local Open Scope list_scope.
Local Open Scope Z_scope.

(** ** Characters and strings *)

Definition code (c : ascii) : Z := Z.of_N (N_of_ascii c).

Definition char_of (n : Z) : ascii := ascii_of_N (Z.to_N n).

(** [str.isspace] on ASCII: TAB..CR, FS..US and the space. *)
Definition is_space (c : ascii) : bool :=
  ((9 <=? code c) && (code c <=? 13)) || ((28 <=? code c) && (code c <=? 32)).

Definition is_digit (c : ascii) : bool :=
  (48 <=? code c) && (code c <=? 57).

Definition digit_val (c : ascii) : Z := code c - 48.

Definition digit_char (d : Z) : ascii := char_of (48 + d).

Definition lower_ascii (c : ascii) : ascii :=
  if (65 <=? code c) && (code c <=? 90) then char_of (code c + 32) else c.

(** [s.lower()] *)
Fixpoint lower (s : string) : string :=
  match s with
  | EmptyString => EmptyString
  | String c r => String (lower_ascii c) (lower r)
  end.

(** [s.lstrip()] *)
Fixpoint lstrip (s : string) : string :=
  match s with
  | EmptyString => EmptyString
  | String c r => if is_space c then lstrip r else s
  end.

(** [s.rstrip()] *)
Fixpoint rstrip (s : string) : string :=
  match s with
  | EmptyString => EmptyString
  | String c r =>
      match rstrip r with
      | EmptyString => if is_space c then EmptyString else String c EmptyString
      | r' => String c r'
      end
  end.

(** [s.strip()] *)
Definition strip (s : string) : string := rstrip (lstrip s).

(** [s.replace(c, "")] for a one-character [c]. *)
Fixpoint remove_char (x : ascii) (s : string) : string :=
  match s with
  | EmptyString => EmptyString
  | String c r => if Ascii.eqb c x then remove_char x r else String c (remove_char x r)
  end.

(** [s.split(sep)] for a one-character [sep]; never returns the empty list. *)
Fixpoint split_char (sep : ascii) (s : string) : list string :=
  match s with
  | EmptyString => [EmptyString]
  | String c r =>
      if Ascii.eqb c sep then EmptyString :: split_char sep r
      else match split_char sep r with
           | h :: t => String c h :: t
           | [] => [String c EmptyString]
           end
  end.

(** [s.startswith(p)] *)
Definition startswith (s p : string) : bool := String.prefix p s.

(** Truth value of a [str]: the empty string is false. *)
Definition truthy (s : string) : bool :=
  match s with EmptyString => false | _ => true end.

(** [a > b] on strings: lexicographic on code points. *)
Definition str_gt (a b : string) : bool :=
  match String.compare a b with Gt => true | _ => false end.

(** ** Decimal rendering of integers *)

Fixpoint show_digits (fuel : nat) (n : Z) (acc : string) : string :=
  let acc' := String (digit_char (n mod 10)) acc in
  match fuel with
  | O => acc'
  | S f => if n <? 10 then acc' else show_digits f (n / 10) acc'
  end.

(** [str(n)] for [n >= 0]; the fuel [log2 n] is at least the number of
    decimal digits minus one. *)
Definition show_nat (n : Z) : string :=
  show_digits (Z.to_nat (Z.log2 n)) n EmptyString.

(** [str(z)] *)
Definition show_Z (z : Z) : string :=
  if z <? 0 then String "-" (show_nat (- z)) else show_nat z.

Fixpoint zeros (k : nat) : string :=
  match k with O => EmptyString | S k' => String "0" (zeros k') end.

(** [s.rjust(w, "0")] *)
Definition zfill_left (w : nat) (s : string) : string :=
  zeros (w - String.length s) +:+ s.

(** [f"{z:0wd}"]: sign-aware zero padding to a minimum width [w]. *)
Definition fmt_0d (w : nat) (z : Z) : string :=
  if z <? 0 then String "-" (zfill_left (w - 1) (show_nat (- z)))
  else zfill_left w (show_nat z).

Fixpoint spaces (k : nat) : string :=
  match k with O => EmptyString | S k' => String " " (spaces k') end.

(** [f"{s:>w}"] and [f"{s:<w}"] *)
Definition rjust (w : nat) (s : string) : string := spaces (w - String.length s) +:+ s.
Definition ljust (w : nat) (s : string) : string := s +:+ spaces (w - String.length s).

(** ** Exceptions *)

Inductive exn : Type :=
| ValueError (msg : string).

Definition exn_msg (e : exn) : string :=
  match e with ValueError m => m end.

Inductive result (A : Type) : Type :=
| Ok (a : A)
| Raise (e : exn).
Arguments Ok {A} a.
Arguments Raise {A} e.

Definition rbind {A B} (r : result A) (k : A -> result B) : result B :=
  match r with
  | Ok a => k a
  | Raise e => Raise e
  end.

Notation "'try!' x := e 'in' k" := (rbind e (fun x => k))
  (at level 10, x name, e at level 100, k at level 200, only parsing).

(** [repr(s)] for an ASCII string. *)
Definition hex_digit (d : Z) : ascii :=
  if d <? 10 then char_of (48 + d) else char_of (87 + d).

Fixpoint contains_char (x : ascii) (s : string) : bool :=
  match s with
  | EmptyString => false
  | String c r => Ascii.eqb c x || contains_char x r
  end.

Fixpoint repr_body (q : ascii) (s : string) : string :=
  match s with
  | EmptyString => EmptyString
  | String c r =>
      let rest := repr_body q r in
      if Ascii.eqb c q || Ascii.eqb c "\" then String "\" (String c rest)
      else if code c =? 10 then String "\" (String "n" rest)
      else if code c =? 13 then String "\" (String "r" rest)
      else if code c =? 9 then String "\" (String "t" rest)
      else if (code c <? 32) || (code c =? 127) then
        String "\" (String "x" (String (hex_digit (code c / 16))
                                  (String (hex_digit (code c mod 16)) rest)))
      else String c rest
  end.

Definition py_repr (s : string) : string :=
  let q : ascii :=
    if contains_char "'" s && negb (contains_char (char_of 34) s) then char_of 34 else "'"%char in
  String q (repr_body q s +:+ String q EmptyString).

(** ** [int(s)] and [parse_date_mdy] *)

(** Scans the rest of a [digitpart] ([digit (["_"] digit)*]) after its first
    digit: [acc] is the value read so far, [n] the number of digits read.
    Returns the value, the digit count and the unread suffix. *)
Fixpoint scan_more (acc : Z) (n : nat) (s : string) : Z * nat * string :=
  match s with
  | EmptyString => (acc, n, EmptyString)
  | String c r =>
      if is_digit c then scan_more (acc * 10 + digit_val c) (S n) r
      else if Ascii.eqb c "_" then
        match r with
        | String d r' =>
            if is_digit d then scan_more (acc * 10 + digit_val d) (S n) r'
            else (acc, n, s)
        | EmptyString => (acc, n, s)
        end
      else (acc, n, s)
  end.

(** A [digitpart] read on top of the value [acc]. *)
Definition scan_digits_from (acc : Z) (s : string) : option (Z * nat * string) :=
  match s with
  | String c r =>
      if is_digit c then Some (scan_more (acc * 10 + digit_val c) 1 r) else None
  | EmptyString => None
  end.

Definition scan_digitpart (s : string) : option (Z * nat * string) :=
  scan_digits_from 0 s.

(** The whitespace that [int] and [float] skip around an ASCII literal
    (C's [isspace]): TAB..CR and the space. It is narrower than the set of
    [str.strip]: the separators FS..US are not skipped. *)
Definition is_cspace (c : ascii) : bool :=
  ((9 <=? code c) && (code c <=? 13)) || (code c =? 32).

Fixpoint lstrip_c (s : string) : string :=
  match s with
  | EmptyString => EmptyString
  | String c r => if is_cspace c then lstrip_c r else s
  end.

Fixpoint rstrip_c (s : string) : string :=
  match s with
  | EmptyString => EmptyString
  | String c r =>
      match rstrip_c r with
      | EmptyString => if is_cspace c then EmptyString else String c EmptyString
      | r' => String c r'
      end
  end.

(** The literal between the whitespace that [int] and [float] skip. *)
Definition strip_c (s : string) : string := rstrip_c (lstrip_c s).

(** [sys.get_int_max_str_digits()], at its default. *)
Definition INT_MAX_STR_DIGITS : Z := 4300.

Definition starts_with_underscore (s : string) : bool :=
  match s with
  | String c _ => Ascii.eqb c "_"
  | EmptyString => false
  end.

(** [int(s)], base 10: surrounding whitespace, an optional sign, digits
    with single underscores between them. A literal of more than 4300
    digits (leading zeros count, underscores do not) is refused. The digits
    and underscores are checked first, then the limit, then what follows
    the digits. *)
Definition py_int (s : string) : result Z :=
  let invalid := ValueError ("invalid literal for int() with base 10: " +:+ py_repr s) in
  let t := strip_c s in
  let '(neg, u) :=
    match t with
    | String c u =>
        if Ascii.eqb c "+" then (false, u)
        else if Ascii.eqb c "-" then (true, u)
        else (false, t)
    | EmptyString => (false, t)
    end in
  match scan_digitpart u with
  | Some (v, n, rest) =>
      if starts_with_underscore rest then Raise invalid
      else if INT_MAX_STR_DIGITS <? Z.of_nat n then
        Raise (ValueError
                 ("Exceeds the limit (4300 digits) for integer string conversion: value has "
                    +:+ show_Z (Z.of_nat n)
                    +:+ " digits; use sys.set_int_max_str_digits() to increase the limit"))
      else
        match rest with
        | EmptyString => Ok (if neg then - v else v)
        | _ => Raise invalid
        end
  | None => Raise invalid
  end.

Definition parse_date_mdy (s : string) : result string :=
  match split_char "/" (strip s) with
  | [p0; p1; p2] =>
      try! m := py_int p0 in
      try! d := py_int p1 in
      try! y := py_int p2 in
      let y := if y <? 100 then y + 2000 else y in
      Ok (fmt_0d 4 y +:+ "-" +:+ fmt_0d 2 m +:+ "-" +:+ fmt_0d 2 d)
  | _ => Raise (ValueError ("Bad date format: " +:+ s))
  end.

Example parse_date_ex1 : parse_date_mdy "1/5/26" = Ok "2026-01-05".
Proof. vm_compute. reflexivity. Qed.
Example parse_date_ex2 : parse_date_mdy " 12/31/1999 " = Ok "1999-12-31".
Proof. vm_compute. reflexivity. Qed.
Example parse_date_ex3 : parse_date_mdy "1/5" = Raise (ValueError "Bad date format: 1/5").
Proof. vm_compute. reflexivity. Qed.
Example parse_date_ex4 : parse_date_mdy "1/x/20" =
  Raise (ValueError "invalid literal for int() with base 10: 'x'").
Proof. vm_compute. reflexivity. Qed.
Example parse_date_ex5 : parse_date_mdy "1/-5/-20" = Ok "1980-01--5".
Proof. vm_compute. reflexivity. Qed.

(** ** Static tables *)

(** A Python [dict] literal whose iteration order matters: the pairs in
    declaration order (the keys of the literals below are distinct). *)
Definition table (V : Type) : Type := list (string * V).

Fixpoint table_get {V} (t : table V) (k : string) : option V :=
  match t with
  | [] => None
  | (k', v) :: r => if String.eqb k' k then Some v else table_get r k
  end.

Definition table_keys {V} (t : table V) : list string := map fst t.

Definition VENDOR_ALIASES : table (list string) :=
  [ ("Ace Hardware", ["Ace Hardware"]);
    ("Airbnb", ["AirBnb"]);
    ("Amazon", ["Amazon"]);
    ("Anderson Law", ["Anderson"]);
    ("ARCO", ["Arco?"]);
    ("Ashland Mobile", ["ashland mobile"]);
    ("Best Buy", ["Best Buy"]);
    ("Anthropic (Claude)", ["Claude"; "claud"]);
    ("DigitalOcean", ["Digital Ocean"]);
    ("Discord / Mitch Ray", ["Discord Mitch Ray"; "mitchray TA"]);
    ("Enterprise Rent-A-Car", ["Enterprise Rentacar"]);
    ("Eugene Chevron", ["Eugene Chevron"]);
    ("EventHelper", ["EventHelper"]);
    ("Meta (Facebook)", ["Facebook Vendor"]);
    ("Fiverr", ["Fiverr"]);
    ("GoDaddy", ["Godaddy"]);
    ("Goodstack", ["goodstack"]);
    ("Harbor Freight", ["Harbor Freight"]);
    ("Harland Clarke", ["Harlond Clarke"]);
    ("ITU Online Training", ["ITU"; "ITU Training"; "itu online"]);
    ("Jess Langpap", ["Jess Langpap"]);
    ("JetBrains", ["JetBrains"]);
    ("Mail Stop", ["Mail Stop"; "mailstop"]);
    ("Matt Campbell", ["Matt Campbell"; "Matt Mileage OR"]);
    ("Medford Airport", ["Medford Airport"]);
    ("Mt. Ashland Foundation", ["Mt Ashland Foundation"]);
    ("Oregon Secretary of State", ["OR Secretary of State"; "Oregon SOS"]);
    ("OpenAI", ["OpenAI"; "Chatgpt"; "chatgpt"]);
    ("Pilot Flying J", ["Pilot"]);
    ("Replit", ["Replit"; "replit"]);
    ("SmallPDF", ["SmalPDF"]);
    ("Stripe", ["stripe"]);
    ("TradingView", ["Trading View"]);
    ("Verizon", ["verizon"]);
    ("Walmart", ["Walmart"]);
    ("Wells Fargo", ["Wells Fargo"]);
    ("Zach Pistole", ["Zach Pistole"]) ].

Definition ACCT_table : table Z :=
  [ ("checking", 1); ("savings", 2); ("petty_cash", 3); ("schwab", 103);
    ("accounts_receivable", 4); ("accounts_payable", 12); ("reimb_payable", 13);
    ("utilities", 44); ("office_supplies", 47); ("software_tech", 48);
    ("postage_shipping", 49); ("telephone_internet", 51);
    ("travel_airfare", 52); ("travel_lodging", 53); ("travel_meals", 54);
    ("travel_ground", 55); ("conference_reg", 56); ("legal_fees", 58);
    ("program_supplies", 62); ("marketing", 69); ("bank_fees", 72);
    ("misc_expense", 74) ].

(** [ACCT[k]]; every key used below is in the table. *)
Definition ACCT (k : string) : Z := default 0 (table_get ACCT_table k).

(** (account id, expense subcategory id or [None], functional class) *)
Definition rule : Type := Z * option Z * string.

Definition DESCRIPTION_MAP : table rule :=
  [ ("phone stipend",        (ACCT "telephone_internet", Some 14, "management_general"));
    ("home office",          (ACCT "office_supplies",    Some 10, "management_general"));
    ("utilities",            (ACCT "utilities",          Some 7,  "management_general"));
    ("internet",             (ACCT "telephone_internet", Some 14, "management_general"));
    ("llm coding",           (ACCT "software_tech",      Some 11, "program"));
    ("investment channel",   (ACCT "misc_expense",       None,    "management_general"));
    ("llm",                  (ACCT "software_tech",      Some 11, "program"));
    ("monthly subscription", (ACCT "software_tech",      Some 11, "program"));
    ("fundraising",          (ACCT "software_tech",      Some 11, "program"));
    ("training",             (ACCT "conference_reg",     Some 19, "program"));
    ("domain renew",         (ACCT "marketing",          Some 28, "program"));
    ("pobox",                (ACCT "postage_shipping",   Some 12, "management_general")) ].

(** ** [map_description] *)

(** The [for key, val in table.items(): if lower.startswith(key): return val]
    loop. *)
Fixpoint first_startswith {V} (t : table V) (lower : string) : option V :=
  match t with
  | [] => None
  | (key, val) :: r => if startswith lower key then Some val else first_startswith r lower
  end.

Definition map_description_in {V} (t : table V) (desc : string) : option V :=
  let lower := strip (lower desc) in
  match table_get t lower with
  | Some v => Some v
  | None => first_startswith t lower
  end.

Definition map_description (desc : string) : option rule :=
  map_description_in DESCRIPTION_MAP desc.

Example map_description_ex1 :
  map_description "LLM coding" = Some (48, Some 11, "program").
Proof. vm_compute. reflexivity. Qed.
Example map_description_ex2 :
  map_description "pobox 3 month" = Some (49, Some 12, "management_general").
Proof. vm_compute. reflexivity. Qed.
Example map_description_ex3 : map_description "unknown expense type" = None.
Proof. vm_compute. reflexivity. Qed.

(** ** The local vendor database *)

(** An entry [{"id": ..., "name": ...}] of [db["vendors"]]; either value is
    [None] when the remote reply that produced it lacked the key. *)
Record vendor_entry : Type := {
  ve_id : option Z;
  ve_name : option string
}.

(** The JSON document of [VENDOR_DB_FILE]. *)
Record vendor_db : Type := {
  vendors : gmap string vendor_entry;
  alias_map : gmap string string
}.

(** [load_vendor_db]'s answer when the file does not exist. *)
Definition empty_db : vendor_db := {| vendors := ∅; alias_map := ∅ |}.

(** The inner loop of [rebuild_alias_map]. *)
Definition add_aliases (canonical : string) (aliases : list string)
    (m : gmap string string) : gmap string string :=
  fold_left (fun m alias => <[lower alias := canonical]> m) aliases m.

Definition rebuild_alias_map_in (t : table (list string)) (db : vendor_db) : vendor_db :=
  {| vendors := vendors db;
     alias_map := fold_left (fun m '(canonical, aliases) => add_aliases canonical aliases m) t ∅ |}.

Definition rebuild_alias_map (db : vendor_db) : vendor_db :=
  rebuild_alias_map_in VENDOR_ALIASES db.

(** [lookup_vendor_id]: the id, or [None]. The guard
    [canonical and canonical in db["vendors"]] also rejects an empty
    canonical name. *)
Definition lookup_vendor_id (raw_name : string) (db : vendor_db) : option Z :=
  match alias_map db !! lower raw_name with
  | Some canonical =>
      if truthy canonical then
        match vendors db !! canonical with
        | Some e => ve_id e
        | None => None
        end
      else None
  | None => None
  end.

Example alias_ex1 :
  alias_map (rebuild_alias_map empty_db) !! "mitchray ta" = Some "Discord / Mitch Ray".
Proof. vm_compute. reflexivity. Qed.
Example alias_ex2 :
  alias_map (rebuild_alias_map empty_db) !! "totally unknown vendor" = None.
Proof. vm_compute. reflexivity. Qed.

(** ** [float]: IEEE-754 binary64

    Every finite double is an integer multiple of [2^-1074], the smallest
    subnormal. A finite value is stored as its sign and its magnitude [n] in
    that unit, so [1.0] is [Ffin false U]. The doubles are the [n] with at
    most 53 significant bits and [n < 2^2098] (that is, below [2^1024]). *)
Inductive float : Type :=
| Fnan
| Finf (neg : bool)
| Ffin (neg : bool) (n : Z).

(** [1.0] in units of [2^-1074]. *)
Definition U : Z := 2 ^ 1074.

(** [2^1024] in units of [2^-1074]: the overflow threshold. *)
Definition OVERFLOW : Z := 2 ^ 2098.

(** [num / den] rounded to the nearest integer, ties to even
    ([0 <= num], [0 < den]). *)
Definition rne_div (num den : Z) : Z :=
  let q := num / den in
  let r := num mod den in
  if 2 * r <? den then q
  else if den <? 2 * r then q + 1
  else if Z.even q then q else q + 1.

(** The rational [P / q] (in units of [2^-1074], [0 <= P], [0 < q]) rounded
    to nearest-even at binary64 precision: the spacing of the doubles around
    it is [2^j] units, where [j] is 0 in the subnormal range. *)
Definition round_units (P q : Z) : Z :=
  let j := Z.max 0 (Z.log2 (P / q) - 52) in
  rne_div P (q * 2 ^ j) * 2 ^ j.

Definition mk_float (neg : bool) (P q : Z) : float :=
  let n := round_units P q in
  if OVERFLOW <=? n then Finf neg else Ffin neg n.

Definition signed (neg : bool) (n : Z) : Z := if neg then - n else n.

(** [x + y] on floats. An exact zero sum is [-0.0] only when both operands
    are negative (zeros). *)
Definition fadd (x y : float) : float :=
  match x, y with
  | Fnan, _ | _, Fnan => Fnan
  | Finf a, Finf b => if Bool.eqb a b then Finf a else Fnan
  | Finf a, Ffin _ _ => Finf a
  | Ffin _ _, Finf b => Finf b
  | Ffin a n, Ffin b m =>
      let z := signed a n + signed b m in
      if z =? 0 then Ffin (a && b) 0
      else mk_float (z <? 0) (Z.abs z) 1
  end.

(** [sum(xs)] for floats [xs]: the start value [0] added to the items from
    left to right, each addition rounded, as the language reference
    defines [sum] and as CPython computes it up to version 3.11 (later
    versions carry a compensation term along for accuracy). On an empty
    list Python returns the [int] 0, which every use below formats exactly
    like [0.0]. *)
Definition py_sum (xs : list float) : float :=
  fold_left fadd xs (Ffin false 0).

(** The decimal [m * 10^e10], correctly rounded. *)
Definition of_decimal (neg : bool) (m e10 : Z) : float :=
  if 0 <=? e10 then mk_float neg (m * 10 ^ e10 * U) 1
  else mk_float neg (m * U) (10 ^ (- e10)).

Definition split_sign (t : string) : bool * string :=
  match t with
  | String c u =>
      if Ascii.eqb c "-" then (true, u)
      else if Ascii.eqb c "+" then (false, u)
      else (false, t)
  | EmptyString => (false, t)
  end.

(** [number ::= [digitpart] "." digitpart | digitpart ["."]]: the digits
    read as one integer, the number of digits after the point, the rest. *)
Definition scan_number (s : string) : option (Z * nat * string) :=
  match scan_digits_from 0 s with
  | Some (ip, _, r1) =>
      match r1 with
      | String c r2 =>
          if Ascii.eqb c "." then
            match scan_digits_from ip r2 with
            | Some (m, k, r3) => Some (m, k, r3)
            | None => Some (ip, 0%nat, r2)
            end
          else Some (ip, 0%nat, r1)
      | EmptyString => Some (ip, 0%nat, r1)
      end
  | None =>
      match s with
      | String c r2 => if Ascii.eqb c "." then scan_digits_from 0 r2 else None
      | EmptyString => None
      end
  end.

(** [[("e" | "E") [sign] digitpart]]: the exponent (0 when absent), the rest. *)
Definition scan_exponent (s : string) : option (Z * string) :=
  match s with
  | String c r =>
      if Ascii.eqb c "e" || Ascii.eqb c "E" then
        let '(neg, u) := split_sign r in
        match scan_digits_from 0 u with
        | Some (e, _, rest) => Some (signed neg e, rest)
        | None => None
        end
      else Some (0, s)
  | EmptyString => Some (0, EmptyString)
  end.

(** [float(s)] *)
Definition py_float (s : string) : result float :=
  let '(neg, u) := split_sign (strip_c s) in
  let lu := lower u in
  if String.eqb lu "inf" || String.eqb lu "infinity" then Ok (Finf neg)
  else if String.eqb lu "nan" then Ok Fnan
  else
    match scan_number u with
    | Some (m, k, r) =>
        match scan_exponent r with
        | Some (e, EmptyString) => Ok (of_decimal neg m (e - Z.of_nat k))
        | _ => Raise (ValueError ("could not convert string to float: " +:+ py_repr s))
        end
    | None => Raise (ValueError ("could not convert string to float: " +:+ py_repr s))
    end.

Definition two_digits (r : Z) : string :=
  String (digit_char (r / 10)) (String (digit_char (r mod 10)) EmptyString).

(** The two-decimal rendering of [c] hundredths, [0 <= c]. *)
Definition show_cents (c : Z) : string :=
  show_nat (c / 100) +:+ String "." (two_digits (c mod 100)).

(** [f"{x:.2f}"]: the exact binary value rounded to hundredths, ties to
    even; the sign of a negative value is kept even when it rounds to zero. *)
Definition format_2f (x : float) : string :=
  match x with
  | Fnan => "nan"
  | Finf false => "inf"
  | Finf true => "-inf"
  | Ffin neg n =>
      let s := show_cents (rne_div (100 * n) U) in
      if neg then String "-" s else s
  end.

(** ** [parse_money] *)

Definition parse_money (s : string) : result string :=
  let s := remove_char "," (remove_char "$" (strip s)) in
  if negb (truthy s) then Ok "0.00"
  else
    try! x := py_float s in
    Ok (format_2f x).

Example parse_money_ex1 : parse_money "$30.00" = Ok "30.00".
Proof. vm_compute. reflexivity. Qed.
Example parse_money_ex2 : parse_money " $1,234.5 " = Ok "1234.50".
Proof. vm_compute. reflexivity. Qed.
Example parse_money_ex3 : parse_money "2.675" = Ok "2.67".
Proof. vm_compute. reflexivity. Qed.
Example parse_money_ex4 : parse_money "0.125" = Ok "0.12".
Proof. vm_compute. reflexivity. Qed.
Example parse_money_ex5 : parse_money "1e2" = Ok "100.00".
Proof. vm_compute. reflexivity. Qed.
Example parse_money_ex6 : parse_money "-0.001" = Ok "-0.00".
Proof. vm_compute. reflexivity. Qed.
Example parse_money_ex7 : parse_money "$" = Ok "0.00".
Proof. vm_compute. reflexivity. Qed.
Example parse_money_ex8 :
  parse_money "abc" = Raise (ValueError "could not convert string to float: 'abc'").
Proof. vm_compute. reflexivity. Qed.
Example parse_money_ex9 : parse_money "70368744177664.01" = Ok "70368744177664.02".
Proof. vm_compute. reflexivity. Qed.
Example parse_money_ex10 : parse_money "1e400" = Ok "inf".
Proof. vm_compute. reflexivity. Qed.
Example fadd_ex1 :
  (try! a := py_float "0.1" in try! b := py_float "0.2" in Ok (fadd a b)) =
  Ok (Ffin false (5404319552844596 * 2 ^ 1020)).
Proof. vm_compute. reflexivity. Qed.

(** ** The expense-report compiler: the row loop of [cmd_import_report] *)

(** One data row of the report: the values [row.get(column, "")] of its four
    columns. (Reading the file, the CSV parsing and the filter that drops
    blank rows happen before the loop and are not modelled.) *)
Record row : Type := {
  row_Date : string;
  row_Vendor : string;
  row_Description : string;
  row_Expense_Total : string
}.

(** A line item built by this program. [li_vendorId] and
    [li_expenseSubcategoryId] are [None] when the key is absent. *)
Record line_item : Type := {
  li_accountId : Z;
  li_debit : string;
  li_credit : string;
  li_description : string;
  li_functionalClass : string;
  li_vendorId : option Z;
  li_expenseSubcategoryId : option Z
}.

(** The three accumulators of the loop. *)
Record compile_state : Type := {
  debit_lines : list line_item;
  errors : list string;
  latest_date : string
}.

Definition compile_init : compile_state :=
  {| debit_lines := []; errors := []; latest_date := EmptyString |}.

Definition add_error (st : compile_state) (e : string) : compile_state :=
  {| debit_lines := debit_lines st; errors := errors st ++ [e];
     latest_date := latest_date st |}.

Definition add_line (st : compile_state) (l : line_item) : compile_state :=
  {| debit_lines := debit_lines st ++ [l]; errors := errors st;
     latest_date := latest_date st |}.

Definition see_date (st : compile_state) (date_str : string) : compile_state :=
  if str_gt date_str (latest_date st)
  then {| debit_lines := debit_lines st; errors := errors st; latest_date := date_str |}
  else st.

(** The prefix [f"Row {i}: "] of every row error. *)
Definition row_tag (i : Z) : string := "Row " +:+ show_Z i +:+ ": ".

(** Truth value of [vendor_id]: [None] and [0] are false. *)
Definition truthy_id (v : option Z) : bool :=
  match v with
  | Some z => negb (z =? 0)
  | None => false
  end.

(** The body of [for i, row in enumerate(rows, 1)]. [Raise] is an exception
    that leaves the loop (and the command): only the [ValueError] of
    [parse_date_mdy] is caught. *)
Definition compile_row (db : vendor_db) (i : Z) (r : row) (st : compile_state)
    : result compile_state :=
  let date_raw := strip (row_Date r) in
  let vendor_raw := strip (row_Vendor r) in
  let desc_raw := strip (row_Description r) in
  let amount_raw := strip (row_Expense_Total r) in
  if negb (truthy date_raw) || negb (truthy desc_raw) || negb (truthy amount_raw) then
    Ok (add_error st (row_tag i +:+ "missing date/description/amount"))
  else
    match parse_date_mdy date_raw with
    | Raise e => Ok (add_error st (row_tag i +:+ exn_msg e))
    | Ok date_str =>
        let st := see_date st date_str in
        try! amount := parse_money amount_raw in
        match map_description desc_raw with
        | None =>
            Ok (add_error st (row_tag i +:+ "no mapping for description '" +:+ desc_raw +:+ "'"))
        | Some (acct_id, subcat_id, func_class) =>
            let vendor_id := lookup_vendor_id vendor_raw db in
            let canonical := default vendor_raw (alias_map db !! lower vendor_raw) in
            if negb (truthy_id vendor_id) then
              Ok (add_error st (row_tag i +:+ "vendor '" +:+ vendor_raw +:+ "' not found in DB"))
            else
              Ok (add_line st
                    {| li_accountId := acct_id;
                       li_debit := amount;
                       li_credit := "0.00";
                       li_description := canonical +:+ " — " +:+ desc_raw;
                       li_functionalClass := func_class;
                       li_vendorId := vendor_id;
                       li_expenseSubcategoryId := subcat_id |})
        end
    end.

Fixpoint compile_rows (db : vendor_db) (i : Z) (rows : list row) (st : compile_state)
    : result compile_state :=
  match rows with
  | [] => Ok st
  | r :: rest =>
      try! st' := compile_row db i r st in
      compile_rows db (i + 1) rest st'
  end.

(** ** The assembled transaction *)

Record transaction : Type := {
  transactionType : string;
  t_date : string;
  t_description : string;
  reimbursementStatus : option string;
  isPosted : bool;
  t_vendorId : option Z;
  reference : option string
}.

(** What [cmd_import_report] computes after the loop. *)
Record compiled : Type := {
  c_total : float;
  c_debit_lines : list line_item;
  c_credit_line : line_item;
  c_transaction : transaction
}.

(** [all_lines = debit_lines + [credit_line]] *)
Definition all_lines (c : compiled) : list line_item :=
  c_debit_lines c ++ [c_credit_line c].

Fixpoint floats_of (ss : list string) : result (list float) :=
  match ss with
  | [] => Ok []
  | s :: r =>
      try! x := py_float s in
      try! xs := floats_of r in
      Ok (x :: xs)
  end.

(** [sum(float(li["debit"]) for li in lines)] *)
Definition total_debit (lines : list line_item) : result float :=
  try! xs := floats_of (map li_debit lines) in
  Ok (py_sum xs).

Definition assemble (desc : string) (st : compile_state) : result compiled :=
  try! total := total_debit (debit_lines st) in
  Ok {| c_total := total;
        c_debit_lines := debit_lines st;
        c_credit_line :=
          {| li_accountId := ACCT "reimb_payable";
             li_debit := "0.00";
             li_credit := format_2f total;
             li_description := "Reimbursement payable";
             li_functionalClass := "none";
             li_vendorId := None;
             li_expenseSubcategoryId := None |};
        c_transaction :=
          {| transactionType := "expense";
             t_date := latest_date st;
             t_description := desc;
             reimbursementStatus := Some "pending";
             isPosted := true;
             t_vendorId := None;
             reference := None |} |}.

(** The report compiler as a function: the rows and the vendor database in,
    the row errors and the assembled transaction out. (In the command the
    transaction is only assembled when there is no row error or on a dry
    run.) *)
Definition compile_report (db : vendor_db) (desc : string) (rows : list row)
    : result (list string * compiled) :=
  try! st := compile_rows (rebuild_alias_map db) 1 rows compile_init in
  try! c := assemble desc st in
  Ok (errors st, c).

(** ** The remote service, the terminal and the disk *)

(** A line of a bill as the user passes it in [--lines]: its ["debit"]
    value when the key is present; the other keys are carried as text. *)
Record user_line : Type := {
  ul_debit : option string;
  ul_rest : string
}.

Inductive line : Type :=
| UserLine (u : user_line)
| Item (l : line_item).

Inductive body : Type :=
| TransactionBody (t : transaction) (lineItems : list line)
| VendorBody (name : string)
| PaymentApplicationBody (paymentTransactionId appliedToTransactionId : option Z)
    (amount appliedDate : string).

Inductive http_method : Type := GET | POST.

Record request : Type := {
  rq_method : http_method;
  rq_path : string;
  rq_org : string;
  rq_body : option body
}.

Record vendor_json : Type := {
  vj_id : Z;
  vj_name : string
}.

(** The parts of a JSON reply that the commands read: [rj_vendors] is
    [resp.get("data", [])] of a vendor listing, whose objects carry ["id"]
    and ["name"]; the other three are [resp.get("data", {}).get(key)] of a
    creation, [None] when the key is absent. *)
Record reply_json : Type := {
  rj_vendors : list vendor_json;
  rj_id : option Z;
  rj_name : option string;
  rj_description : option string
}.

(** What [urlopen] does: a reply, an [HTTPError] (with the message
    [api_request] extracts from its body) or a [URLError]. *)
Inductive reply : Type :=
| Reply (j : reply_json)
| HTTPError (code : Z) (message : string)
| URLError (reason : string).

Inductive printed : Type :=
| Text (s : string)
| Json (b : body).

(** The remote service answers a request knowing the requests made before
    it. [trace] lists the requests made, oldest first; [disk] is the content
    of [VENDOR_DB_FILE], [None] when the file does not exist. *)
Record world : Type := {
  server : list request -> request -> reply;
  trace : list request;
  stdout : list printed;
  stderr : list string;
  disk : option vendor_db
}.

(** How a command ends: it returns, it calls [sys.exit(code)], or an
    exception escapes. *)
Inductive outcome (A : Type) : Type :=
| Return (a : A)
| Exited (status : Z)
| Uncaught (e : exn).
Arguments Return {A} a.
Arguments Exited {A} status.
Arguments Uncaught {A} e.

Definition cmd (A : Type) : Type := world -> outcome A * world.

Definition ret {A} (a : A) : cmd A := fun w => (Return a, w).

Definition cbind {A B} (c : cmd A) (k : A -> cmd B) : cmd B :=
  fun w =>
    match c w with
    | (Return a, w') => k a w'
    | (Exited s, w') => (Exited s, w')
    | (Uncaught e, w') => (Uncaught e, w')
    end.

Notation "'do!' x := e 'in' k" := (cbind e (fun x => k))
  (at level 10, x name, e at level 100, k at level 200, only parsing).
Notation "e ;;; k" := (cbind e (fun _ => k))
  (at level 100, k at level 200, right associativity, only parsing).

Definition sys_exit {A} (status : Z) : cmd A := fun w => (Exited status, w).

Definition raise {A} (e : exn) : cmd A := fun w => (Uncaught e, w).

Definition lift {A} (r : result A) : cmd A :=
  match r with
  | Ok a => ret a
  | Raise e => raise e
  end.

Definition print_out (p : printed) : cmd unit := fun w =>
  (Return tt, {| server := server w; trace := trace w; stdout := stdout w ++ [p];
                 stderr := stderr w; disk := disk w |}).

Definition print (s : string) : cmd unit := print_out (Text s).

Definition eprint (s : string) : cmd unit := fun w =>
  (Return tt, {| server := server w; trace := trace w; stdout := stdout w;
                 stderr := stderr w ++ [s]; disk := disk w |}).

Fixpoint eprint_all (l : list string) : cmd unit :=
  match l with
  | [] => ret tt
  | s :: r => eprint s ;;; eprint_all r
  end.

Fixpoint print_all (l : list string) : cmd unit :=
  match l with
  | [] => ret tt
  | s :: r => print s ;;; print_all r
  end.

Definition load_vendor_db : cmd vendor_db := fun w =>
  (Return (default empty_db (disk w)), w).

Definition save_vendor_db (db : vendor_db) : cmd unit := fun w =>
  (Return tt, {| server := server w; trace := trace w; stdout := stdout w;
                 stderr := stderr w; disk := Some db |}).

(** [api_request]: the request is made (and recorded); a failure is printed
    on stderr and ends the process with status 1. *)
Definition api_request (method : http_method) (path org_id : string)
    (b : option body) : cmd reply_json := fun w =>
  let rq := {| rq_method := method; rq_path := path; rq_org := org_id; rq_body := b |} in
  let w' := {| server := server w; trace := trace w ++ [rq]; stdout := stdout w;
               stderr := stderr w; disk := disk w |} in
  match server w (trace w) rq with
  | Reply j => (Return j, w')
  | HTTPError code message =>
      (eprint ("API Error " +:+ show_Z code +:+ ": " +:+ message) ;;; sys_exit 1) w'
  | URLError reason =>
      (eprint ("Connection error: " +:+ reason) ;;; sys_exit 1) w'
  end.

(** [str(x)] of an id read with [.get("id")]. *)
Definition show_id (x : option Z) : string :=
  match x with
  | Some z => show_Z z
  | None => "None"
  end.

Definition show_opt (x : option string) : string := default "None" x.

(** ** [cmd_import_report] *)

Record import_report_args : Type := {
  ir_org : string;
  ir_desc : string;
  ir_dry_run : bool;
  ir_file : string
}.

Definition report_body (c : compiled) : body :=
  TransactionBody (c_transaction c) (map Item (all_lines c)).

Definition show_debit_line (li : line_item) : string :=
  let sub := match li_expenseSubcategoryId li with
             | Some k => " sub:" +:+ show_Z k
             | None => EmptyString
             end in
  "  DR " +:+ rjust 10 (li_debit li) +:+ "  acct:" +:+ ljust 4 (show_Z (li_accountId li))
    +:+ sub +:+ "  v:" +:+ ljust 4 (show_id (li_vendorId li)) +:+ " ["
    +:+ li_functionalClass li +:+ "]  " +:+ li_description li.

(** [file] is the list of non-blank data rows of [args.file], [None] when
    the file does not exist. *)
Definition cmd_import_report (args : import_report_args) (file : option (list row))
    : cmd unit :=
  match file with
  | None => eprint ("Error: File not found: " +:+ ir_file args) ;;; sys_exit 1
  | Some [] => eprint "No data rows found." ;;; sys_exit 1
  | Some rows =>
      do! db := load_vendor_db in
      let db := rebuild_alias_map db in
      do! st := lift (compile_rows db 1 rows compile_init) in
      (match errors st with
       | [] => ret tt
       | errs =>
           eprint ("Errors (" +:+ show_Z (Z.of_nat (length errs)) +:+ "):") ;;;
           eprint_all (map (fun e => "  " +:+ e) errs) ;;;
           if negb (ir_dry_run args)
           then eprint (String (char_of 10) "Fix errors before importing.") ;;; sys_exit 1
           else ret tt
       end) ;;;
      do! c := lift (assemble (ir_desc args) st) in
      print ("Expense report: " +:+ ir_desc args) ;;;
      print ("Date: " +:+ latest_date st +:+ " | Lines: "
               +:+ show_Z (Z.of_nat (length (all_lines c))) +:+ " ("
               +:+ show_Z (Z.of_nat (length (c_debit_lines c))) +:+ " debits + 1 credit)") ;;;
      print ("Total: $" +:+ format_2f (c_total c)) ;;;
      print EmptyString ;;;
      print_all (map show_debit_line (c_debit_lines c)) ;;;
      print ("  CR " +:+ rjust 10 (li_credit (c_credit_line c)) +:+ "  acct:"
               +:+ ljust 4 (show_Z (li_accountId (c_credit_line c)))
               +:+ "  Reimbursement payable") ;;;
      print EmptyString ;;;
      if ir_dry_run args then
        print "[DRY RUN] Would post the above transaction." ;;;
        print_out (Json (report_body c))
      else
        do! resp := api_request POST "/transactions" (ir_org args) (Some (report_body c)) in
        print ("Created transaction ID " +:+ show_id (rj_id resp) +:+ ": "
                 +:+ show_opt (rj_description resp))
  end.

(** ** [cmd_import_vendors] *)

Record import_vendors_args : Type := {
  iv_org : string;
  iv_dry_run : bool
}.

(** [sorted(names)]: insertion sort on the code-point order of strings. *)
Fixpoint insert_sorted (x : string) (l : list string) : list string :=
  match l with
  | [] => [x]
  | y :: r => if String.leb x y then x :: l else y :: insert_sorted x r
  end.

Definition sorted (l : list string) : list string :=
  fold_right insert_sorted [] l.

(** [{v["name"].lower(): v for v in data}]: a later vendor of the same
    lowercased name replaces an earlier one. *)
Definition existing_of (data : list vendor_json) : gmap string vendor_json :=
  fold_left (fun m v => <[lower (vj_name v) := v]> m) data ∅.

(** The database and the two counters of the loop. *)
Record import_state : Type := {
  is_db : vendor_db;
  is_created : Z;
  is_skipped : Z
}.

Definition set_vendor (db : vendor_db) (name : string) (e : vendor_entry) : vendor_db :=
  {| vendors := <[name := e]> (vendors db); alias_map := alias_map db |}.

(** The body of [for name in canonical_names]. *)
Definition import_vendor (args : import_vendors_args)
    (existing : gmap string vendor_json) (name : string) (st : import_state)
    : cmd import_state :=
  match existing !! lower name with
  | Some v =>
      let vid := vj_id v in
      print ("  SKIP (exists on server) ID " +:+ show_Z vid +:+ ": " +:+ name) ;;;
      ret {| is_db := set_vendor (is_db st) name {| ve_id := Some vid; ve_name := Some name |};
             is_created := is_created st;
             is_skipped := is_skipped st + 1 |}
  | None =>
      match vendors (is_db st) !! name with
      | Some e =>
          print ("  SKIP (in local DB) ID " +:+ show_id (ve_id e) +:+ ": " +:+ name) ;;;
          ret {| is_db := is_db st; is_created := is_created st;
                 is_skipped := is_skipped st + 1 |}
      | None =>
          if iv_dry_run args then
            print ("  WOULD CREATE: " +:+ name) ;;; ret st
          else
            do! resp := api_request POST "/vendors" (iv_org args) (Some (VendorBody name)) in
            let vid := rj_id resp in
            print ("  CREATED ID " +:+ show_id vid +:+ ": " +:+ name) ;;;
            ret {| is_db := set_vendor (is_db st) name {| ve_id := vid; ve_name := rj_name resp |};
                   is_created := is_created st + 1;
                   is_skipped := is_skipped st |}
      end
  end.

Fixpoint import_vendors_loop (args : import_vendors_args)
    (existing : gmap string vendor_json) (names : list string) (st : import_state)
    : cmd import_state :=
  match names with
  | [] => ret st
  | name :: rest =>
      do! st' := import_vendor args existing name st in
      import_vendors_loop args existing rest st'
  end.

(** The command over an alias table [t]; [VENDOR_DB_FILE] is printed as
    [db_file]. Returns the two counters. *)
Definition import_vendors_in (t : table (list string)) (db_file : string)
    (args : import_vendors_args) : cmd (Z * Z) :=
  do! resp := api_request GET "/vendors" (iv_org args) None in
  let existing := existing_of (rj_vendors resp) in
  do! db := load_vendor_db in
  let db := rebuild_alias_map_in t db in
  let canonical_names := sorted (table_keys t) in
  do! st := import_vendors_loop args existing canonical_names
              {| is_db := db; is_created := 0; is_skipped := 0 |} in
  save_vendor_db (is_db st) ;;;
  print (String (char_of 10)
           ("Done: " +:+ show_Z (is_created st) +:+ " created, " +:+ show_Z (is_skipped st)
              +:+ " skipped. Local DB saved to " +:+ db_file)) ;;;
  ret (is_created st, is_skipped st).

(** The path of the store file, relative to the directory of the script
    (the program joins it to that directory). It only appears in the last
    line the import prints. *)
Definition VENDOR_DB_FILE : string := "data/vendors.json".

Definition cmd_import_vendors (args : import_vendors_args) : cmd (Z * Z) :=
  import_vendors_in VENDOR_ALIASES VENDOR_DB_FILE args.

(** ** [cmd_vendor_lookup] *)

Definition msg_no_alias (raw : string) : string := "No alias mapping for: " +:+ raw.

Definition msg_not_created (canonical : string) : string :=
  "Canonical vendor '" +:+ canonical +:+ "' not yet created (no ID in local DB)".

Definition cmd_vendor_lookup (raw : string) : cmd unit :=
  do! db := load_vendor_db in
  let db := rebuild_alias_map db in
  match alias_map db !! lower raw with
  | None => print (msg_no_alias raw) ;;; sys_exit 1
  | Some canonical =>
      if negb (truthy canonical) then
        print (msg_no_alias raw) ;;; sys_exit 1
      else
        match vendors db !! canonical with
        | None => print (msg_not_created canonical) ;;; sys_exit 1
        | Some entry =>
            print ("Raw: " +:+ raw +:+ " -> Canonical: " +:+ canonical +:+ " -> ID: "
                     +:+ show_id (ve_id entry))
        end
  end.

(** ** [cmd_pay_bill] *)

Record pay_bill_args : Type := {
  pb_org : string;
  pb_date : string;
  pb_desc : string;
  pb_lines : option (list user_line);
  pb_vendor : option string;
  pb_ref : option string;
  pb_payment_date : option string;
  pb_cash_account : option string;
  pb_dry_run : bool
}.

(** [x if x else None] for an optional argument: an absent or empty
    argument is false. *)
Definition given (x : option string) : option string :=
  match x with
  | Some s => if truthy s then Some s else None
  | None => None
  end.

(** [sum(float(li.get("debit", "0")) for li in expense_lines)] *)
Definition total_lines (ls : list user_line) : result float :=
  try! xs := floats_of (map (fun l => default "0" (ul_debit l)) ls) in
  Ok (py_sum xs).

Definition plain_line (account : Z) (debit credit description : string) : line_item :=
  {| li_accountId := account; li_debit := debit; li_credit := credit;
     li_description := description; li_functionalClass := "none";
     li_vendorId := None; li_expenseSubcategoryId := None |}.

(** [pb_lines] is [json.loads(args.lines)], [None] when the text is not
    JSON (the message of the [JSONDecodeError] is not modelled). *)
Definition cmd_pay_bill (args : pay_bill_args) : cmd unit :=
  match pb_lines args with
  | None => eprint "Error parsing --lines JSON" ;;; sys_exit 1
  | Some expense_lines =>
      do! total := lift (total_lines expense_lines) in
      do! vendor_id := lift (match given (pb_vendor args) with
                             | Some v => try! z := py_int v in Ok (Some z)
                             | None => Ok None
                             end) in
      do! cash_acct := lift (match given (pb_cash_account args) with
                             | Some a => py_int a
                             | None => Ok (ACCT "checking")
                             end) in
      let amount := format_2f total in
      let bill_lines :=
        map UserLine expense_lines
          ++ [Item (plain_line (ACCT "accounts_payable") "0.00" amount "Accounts payable")] in
      let vendor_key := if truthy_id vendor_id then vendor_id else None in
      let bill_body :=
        TransactionBody
          {| transactionType := "bill"; t_date := pb_date args;
             t_description := pb_desc args; reimbursementStatus := None;
             isPosted := true; t_vendorId := vendor_key;
             reference := given (pb_ref args) |}
          bill_lines in
      let payment_date := default (pb_date args) (given (pb_payment_date args)) in
      if pb_dry_run args then
        print "[DRY RUN] Step 1 — Bill:" ;;;
        print_out (Json bill_body) ;;;
        print (String (char_of 10)
                 ("Step 2 — Payment (" +:+ payment_date +:+ "): DR AP $" +:+ amount
                    +:+ ", CR acct:" +:+ show_Z cash_acct +:+ " $" +:+ amount)) ;;;
        print ("Step 3 — Payment application: $" +:+ amount)
      else
        do! resp := api_request POST "/transactions" (pb_org args) (Some bill_body) in
        let bill_id := rj_id resp in
        print ("Step 1: Created bill ID " +:+ show_id bill_id +:+ " — " +:+ pb_desc args) ;;;
        let payment_body :=
          TransactionBody
            {| transactionType := "payment"; t_date := payment_date;
               t_description := "Payment — " +:+ pb_desc args;
               reimbursementStatus := None; isPosted := true;
               t_vendorId := vendor_key; reference := None |}
            [ Item (plain_line (ACCT "accounts_payable") amount "0.00" "Clear accounts payable");
              Item (plain_line cash_acct "0.00" amount "Payment from cash account") ] in
        do! resp := api_request POST "/transactions" (pb_org args) (Some payment_body) in
        let pmt_id := rj_id resp in
        print ("Step 2: Created payment ID " +:+ show_id pmt_id +:+ " — Payment — "
                 +:+ pb_desc args) ;;;
        let pa_body := PaymentApplicationBody pmt_id bill_id amount payment_date in
        do! resp := api_request POST "/payment-applications" (pb_org args) (Some pa_body) in
        let pa_id := rj_id resp in
        print ("Step 3: Created payment application ID " +:+ show_id pa_id +:+ " — $"
                 +:+ amount) ;;;
        print (String (char_of 10)
                 ("Done: bill=" +:+ show_id bill_id +:+ ", payment=" +:+ show_id pmt_id
                    +:+ ", application=" +:+ show_id pa_id))
  end.

Example sorted_ex :
  firstn 5 (sorted (table_keys VENDOR_ALIASES)) =
  ["ARCO"; "Ace Hardware"; "Airbnb"; "Amazon"; "Anderson Law"].
Proof. vm_compute. reflexivity. Qed.

(** ** Vocabulary of the properties *)

(** The world after one more line on stdout, and on stderr. *)
Definition said (w : world) (p : printed) : world :=
  {| server := server w; trace := trace w; stdout := stdout w ++ [p];
     stderr := stderr w; disk := disk w |}.

Definition complained (w : world) (s : string) : world :=
  {| server := server w; trace := trace w; stdout := stdout w;
     stderr := stderr w ++ [s]; disk := disk w |}.

(** The world after one more request. *)
Definition requested (w : world) (rq : request) : world :=
  {| server := server w; trace := trace w ++ [rq]; stdout := stdout w;
     stderr := stderr w; disk := disk w |}.

Fixpoint all_chars (P : ascii -> bool) (s : string) : bool :=
  match s with
  | EmptyString => true
  | String c r => P c && all_chars P r
  end.

(** A non-empty string of decimal digits. *)
Definition is_digits (s : string) : bool :=
  truthy s && all_chars is_digit s.

(** The value of a string of decimal digits, read on top of [acc]. *)
Fixpoint dec_fold (acc : Z) (s : string) : Z :=
  match s with
  | EmptyString => acc
  | String c r => dec_fold (acc * 10 + digit_val c) r
  end.

Definition dec_value (s : string) : Z := dec_fold 0 s.

(** Case-insensitive equality and prefix, as the specification words them. *)
Definition ci_eqb (a b : string) : bool := String.eqb (lower a) (lower b).
Definition ci_prefixb (p s : string) : bool := String.prefix (lower p) (lower s).

(** The matching policy of the classifier as the specification states it:
    the rule whose keyphrase equals the trimmed description, else the first
    rule whose keyphrase is a prefix of it, both case-insensitively. *)
Definition classify_spec {V} (t : table V) (desc : string) : option V :=
  let d := strip desc in
  match find (fun kv => ci_eqb (fst kv) d) t with
  | Some kv => Some (snd kv)
  | None => option_map snd (find (fun kv => ci_prefixb (fst kv) d) t)
  end.

Definition lowercase_keys {V} (t : table V) : Prop :=
  Forall (fun kv => lower (fst kv) = fst kv) t.

(** The line [api_request] prints on stderr for a failed request. *)
Definition failure_line (r : reply) : option string :=
  match r with
  | Reply _ => None
  | HTTPError code message => Some ("API Error " +:+ show_Z code +:+ ": " +:+ message)
  | URLError reason => Some ("Connection error: " +:+ reason)
  end.

(** A command that makes no request. *)
Definition quiet {A} (c : cmd A) : Prop :=
  forall w, trace (snd (c w)) = trace w.

(** The one request of a dry run of import-vendors: the vendor listing. *)
Definition list_vendors_request (org : string) : request :=
  {| rq_method := GET; rq_path := "/vendors"; rq_org := org; rq_body := None |}.

(** [name] carries the id of its remote namesake, when there is one. *)
Definition adopted (existing : gmap string vendor_json) (db : vendor_db) (name : string) : Prop :=
  forall v, existing !! lower name = Some v ->
    vendors db !! name = Some {| ve_id := Some (vj_id v); ve_name := Some name |}.

(** [name] has an entry in the local store. *)
Definition stored (db : vendor_db) (name : string) : Prop :=
  is_Some (vendors db !! name).

(** What the loop guarantees of a line it appended: its credit is "0.00"
    and its debit is what [parse_money] returned for some amount text. *)
Definition row_line (l : line_item) : Prop :=
  li_credit l = "0.00" /\ exists s, parse_money s = Ok (li_debit l).


(** The (debit, credit) pairs of the lines of a transaction, in order. *)
Definition sides (c : compiled) : list (string * string) :=
  map (fun l => (li_debit l, li_credit l)) (all_lines c).

(** *** Money as hundredths, and doubles that stand for them *)

(** [1.0] is [2^53] times [V]; [V] is the value of [2^-53], the relative
    precision of a double. *)
Definition V : Z := 2 ^ 1021.

(** A finite double [x] stands for [c] hundredths within the rounding of
    one decimal-to-binary conversion. *)
Definition approx (x : float) (c : Z) : Prop :=
  exists neg n, x = Ffin neg n /\ 0 <= n /\
    Z.abs (100 * signed neg n - U * c) <= Z.abs c * V.

(** The sum of the absolute values, and the sum, of a list of integers. *)
Fixpoint sum_abs (cs : list Z) : Z :=
  match cs with
  | [] => 0
  | c :: r => Z.abs c + sum_abs r
  end.

Fixpoint sum_Z (cs : list Z) : Z :=
  match cs with
  | [] => 0
  | c :: r => c + sum_Z r
  end.

(** A two-decimal string (an optional sign, digits, a point, two digits,
    as [float] reads them) as a signed number of hundredths; [None] for
    anything else, such as "nan" and "inf". *)
Definition money_cents (s : string) : option Z :=
  let '(neg, u) := split_sign s in
  match scan_number u with
  | Some (m, 2%nat, EmptyString) => Some (signed neg m)
  | _ => None
  end.

(** The two-decimal string of [c] hundredths with a sign. *)
Definition money_string (neg : bool) (c : Z) : string :=
  if neg then String "-" (show_cents c) else show_cents c.

(** The sum of a list of two-decimal strings, in hundredths; [None] when
    one of them is not a two-decimal string. *)
Fixpoint sum_cents (ss : list string) : option Z :=
  match ss with
  | [] => Some 0
  | s :: r =>
      match money_cents s, sum_cents r with
      | Some a, Some b => Some (a + b)
      | _, _ => None
      end
  end.

(** The sum of the absolute values of a list of two-decimal strings. *)
Fixpoint abs_cents (ss : list string) : option Z :=
  match ss with
  | [] => Some 0
  | s :: r =>
      match money_cents s, abs_cents r with
      | Some a, Some b => Some (Z.abs a + b)
      | _, _ => None
      end
  end.

(** Double-entry balance: the debit fields and the credit fields of the
    lines are two-decimal strings with the same sum. *)
Definition balanced (c : compiled) : Prop :=
  exists t,
    sum_cents (map li_debit (all_lines c)) = Some t /\
    sum_cents (map li_credit (all_lines c)) = Some t.

(** * Properties *)

(** ** Strings *)

Lemma append_cons (c : ascii) (s t : string) : String c s +:+ t = String c (s +:+ t).
Proof. reflexivity. Qed.

Lemma append_nil_l (t : string) : EmptyString +:+ t = t.
Proof. reflexivity. Qed.

Ltac app_simpl := rewrite ?append_cons, ?append_nil_l in *; simpl.

Lemma append_nil_r (s : string) : s +:+ EmptyString = s.
Proof. induction s as [|c s IH]; app_simpl; [reflexivity | now rewrite IH]. Qed.

Lemma append_assoc (a b c : string) : (a +:+ b) +:+ c = a +:+ (b +:+ c).
Proof. induction a as [|x a IH]; app_simpl; [reflexivity | now rewrite IH]. Qed.

Lemma all_chars_append P (a b : string) :
  all_chars P (a +:+ b) = all_chars P a && all_chars P b.
Proof.
  induction a as [|x a IH]; app_simpl; [reflexivity|].
  rewrite IH. now rewrite andb_assoc.
Qed.

Lemma code_range (c : ascii) : 0 <= code c < 256.
Proof.
  unfold code. pose proof (N_ascii_bounded c) as H.
  split; [apply N2Z.is_nonneg | lia].
Qed.

Lemma char_of_code (c : ascii) : char_of (code c) = c.
Proof. unfold char_of, code. rewrite N2Z.id. apply ascii_N_embedding. Qed.

Lemma code_char_of (n : Z) : 0 <= n < 256 -> code (char_of n) = n.
Proof.
  intros H. unfold char_of, code.
  rewrite N_ascii_embedding by lia. lia.
Qed.

Lemma code_inj (a b : ascii) : code a = code b -> a = b.
Proof. intros H. rewrite <- (char_of_code a), <- (char_of_code b). now rewrite H. Qed.

Lemma is_digit_code (c : ascii) : is_digit c = true <-> 48 <= code c <= 57.
Proof. unfold is_digit. rewrite andb_true_iff, !Z.leb_le. tauto. Qed.

Lemma digit_not_space (c : ascii) : is_digit c = true -> is_space c = false.
Proof.
  intros H%is_digit_code. unfold is_space.
  apply orb_false_iff; split; apply andb_false_iff; right; apply Z.leb_gt; lia.
Qed.

Lemma digit_neq (c x : ascii) : is_digit c = true -> is_digit x = false -> Ascii.eqb c x = false.
Proof.
  intros Hc Hx. destruct (Ascii.eqb_spec c x) as [->|]; [congruence | reflexivity].
Qed.

Lemma digit_val_range (c : ascii) : is_digit c = true -> 0 <= digit_val c <= 9.
Proof. intros H%is_digit_code. unfold digit_val. lia. Qed.

Lemma digit_char_is_digit (d : Z) : 0 <= d <= 9 -> is_digit (digit_char d) = true.
Proof.
  intros H. apply is_digit_code. unfold digit_char. rewrite code_char_of; lia.
Qed.

Lemma digit_val_char (d : Z) : 0 <= d <= 9 -> digit_val (digit_char d) = d.
Proof. intros H. unfold digit_val, digit_char. rewrite code_char_of; lia. Qed.

(** *** [strip] leaves a string without whitespace alone *)

Definition no_space (s : string) : bool := all_chars (fun c => negb (is_space c)) s.

Lemma lstrip_no_space (s : string) : no_space s = true -> lstrip s = s.
Proof.
  destruct s as [|c r]; simpl; [reflexivity|].
  intros [Hc _]%andb_true_iff. apply negb_true_iff in Hc. now rewrite Hc.
Qed.

Lemma rstrip_no_space (s : string) : no_space s = true -> rstrip s = s.
Proof.
  induction s as [|c r IH]; simpl; [reflexivity|].
  intros [Hc Hr]%andb_true_iff. apply negb_true_iff in Hc.
  rewrite (IH Hr). destruct r; [now rewrite Hc | reflexivity].
Qed.

Lemma strip_no_space (s : string) : no_space s = true -> strip s = s.
Proof.
  intros H. unfold strip. rewrite (lstrip_no_space _ H). now apply rstrip_no_space.
Qed.

Lemma all_chars_impl (P Q : ascii -> bool) (s : string) :
  (forall c, P c = true -> Q c = true) -> all_chars P s = true -> all_chars Q s = true.
Proof.
  intros HPQ. induction s as [|c r IH]; simpl; [reflexivity|].
  intros [Hc Hr]%andb_true_iff. rewrite (HPQ _ Hc), (IH Hr). reflexivity.
Qed.

Lemma digits_no_space (s : string) : all_chars is_digit s = true -> no_space s = true.
Proof.
  apply all_chars_impl. intros c H. now rewrite (digit_not_space _ H).
Qed.

(** *** [split] *)

Lemma split_char_cons (sep : ascii) (s : string) :
  exists h t, split_char sep s = h :: t.
Proof.
  induction s as [|c r (h & t & IH)]; simpl; [eauto|].
  destruct (Ascii.eqb c sep); [eauto|]. rewrite IH. eauto.
Qed.

Lemma split_char_none (sep : ascii) (a : string) :
  contains_char sep a = false -> split_char sep a = [a].
Proof.
  induction a as [|c r IH]; simpl; [reflexivity|].
  intros [Hc Hr]%orb_false_iff. rewrite Hc, (IH Hr). reflexivity.
Qed.

Lemma split_char_app (sep : ascii) (a r : string) :
  contains_char sep a = false ->
  split_char sep (a +:+ String sep r) = a :: split_char sep r.
Proof.
  induction a as [|c a IH]; app_simpl.
  - intros _. now rewrite Ascii.eqb_refl.
  - intros [Hc Ha]%orb_false_iff. rewrite Hc, (IH Ha). reflexivity.
Qed.

Lemma digits_without (x : ascii) (s : string) :
  is_digit x = false -> all_chars is_digit s = true -> contains_char x s = false.
Proof.
  intros Hx. induction s as [|c r IH]; simpl; [reflexivity|].
  intros [Hc Hr]%andb_true_iff. rewrite (digit_neq _ _ Hc Hx), (IH Hr). reflexivity.
Qed.

(** *** Scanning digits *)

(** Where a [digitpart] ends: at the end of the string or before a
    character that is neither a digit nor an underscore. *)
Definition stops (rest : string) : Prop :=
  match rest with
  | EmptyString => True
  | String c _ => is_digit c = false /\ Ascii.eqb c "_" = false
  end.

Lemma scan_more_digits (ds rest : string) :
  all_chars is_digit ds = true -> stops rest ->
  forall acc k,
    scan_more acc k (ds +:+ rest) = (dec_fold acc ds, (k + String.length ds)%nat, rest).
Proof.
  intros Hds Hrest. induction ds as [|c r IH]; intros acc k; app_simpl.
  - rewrite Nat.add_0_r. destruct rest as [|c r]; [reflexivity|].
    destruct Hrest as [H1 H2]. simpl. now rewrite H1, H2.
  - simpl in Hds. apply andb_true_iff in Hds as [Hc Hr].
    rewrite Hc, (IH Hr). f_equal. f_equal. lia.
Qed.

Lemma scan_digits_from_digits (ds rest : string) (acc : Z) :
  is_digits ds = true -> stops rest ->
  scan_digits_from acc (ds +:+ rest) =
    Some (dec_fold acc ds, String.length ds, rest).
Proof.
  unfold is_digits. destruct ds as [|c r]; [discriminate|]. app_simpl.
  intros [Hc Hr]%andb_true_iff Hrest. rewrite Hc.
  now rewrite (scan_more_digits r rest Hr Hrest).
Qed.

Lemma scan_digitpart_digits (ds : string) :
  is_digits ds = true ->
  scan_digitpart ds = Some (dec_value ds, String.length ds, EmptyString).
Proof.
  intros H. unfold scan_digitpart.
  rewrite <- (append_nil_r ds) at 1.
  now rewrite (scan_digits_from_digits ds EmptyString 0 H I).
Qed.

Lemma is_digits_all (ds : string) : is_digits ds = true -> all_chars is_digit ds = true.
Proof. unfold is_digits. now intros [_ H]%andb_true_iff. Qed.

(** *** The whitespace of [int] and [float] *)

Lemma cspace_is_space (c : ascii) : is_cspace c = true -> is_space c = true.
Proof.
  unfold is_cspace, is_space.
  intros [[H1%Z.leb_le H2%Z.leb_le]%andb_true_iff | H%Z.eqb_eq]%orb_true_iff;
    apply orb_true_iff; [left | right]; apply andb_true_iff; split; apply Z.leb_le; lia.
Qed.

Lemma not_space_not_cspace (c : ascii) : is_space c = false -> is_cspace c = false.
Proof.
  intros H. destruct (is_cspace c) eqn:E; [|reflexivity].
  apply cspace_is_space in E. congruence.
Qed.

Lemma lstrip_c_no_space (s : string) : no_space s = true -> lstrip_c s = s.
Proof.
  destruct s as [|c r]; simpl; [reflexivity|].
  intros [Hc _]%andb_true_iff. apply negb_true_iff in Hc.
  now rewrite (not_space_not_cspace _ Hc).
Qed.

Lemma rstrip_c_no_space (s : string) : no_space s = true -> rstrip_c s = s.
Proof.
  induction s as [|c r IH]; simpl; [reflexivity|].
  intros [Hc Hr]%andb_true_iff. apply negb_true_iff in Hc.
  rewrite (IH Hr). destruct r; [now rewrite (not_space_not_cspace _ Hc) | reflexivity].
Qed.

Lemma strip_c_no_space (s : string) : no_space s = true -> strip_c s = s.
Proof.
  intros H. unfold strip_c. rewrite (lstrip_c_no_space _ H). now apply rstrip_c_no_space.
Qed.

(** [int] reads a literal of at most 4300 digits as its decimal value. *)
Lemma py_int_digits (ds : string) :
  is_digits ds = true -> Z.of_nat (String.length ds) <= INT_MAX_STR_DIGITS ->
  py_int ds = Ok (dec_value ds).
Proof.
  intros H Hlen. unfold py_int.
  rewrite (strip_c_no_space ds) by (now apply digits_no_space, is_digits_all).
  destruct ds as [|c r] eqn:E; [discriminate|].
  assert (Hc : is_digit c = true).
  { apply is_digits_all in H. simpl in H. now apply andb_true_iff in H as [Hc _]. }
  rewrite !(digit_neq c) by (assumption || reflexivity).
  rewrite (scan_digitpart_digits _ H). cbn [starts_with_underscore].
  destruct (Z.ltb_spec INT_MAX_STR_DIGITS (Z.of_nat (String.length (String c r)))); [lia|].
  reflexivity.
Qed.

(** A literal of more than 4300 digits is refused. *)
Lemma py_int_too_long (ds : string) :
  is_digits ds = true -> INT_MAX_STR_DIGITS < Z.of_nat (String.length ds) ->
  exists msg, py_int ds = Raise (ValueError msg).
Proof.
  intros H Hlen. unfold py_int.
  rewrite (strip_c_no_space ds) by (now apply digits_no_space, is_digits_all).
  destruct ds as [|c r] eqn:E; [discriminate|].
  assert (Hc : is_digit c = true).
  { apply is_digits_all in H. simpl in H. now apply andb_true_iff in H as [Hc _]. }
  rewrite !(digit_neq c) by (assumption || reflexivity).
  rewrite (scan_digitpart_digits _ H). cbn [starts_with_underscore].
  destruct (Z.ltb_spec INT_MAX_STR_DIGITS (Z.of_nat (String.length (String c r)))); [|lia].
  eauto.
Qed.

(** ** Dates *)

Lemma below_cases (n : nat) (f : Z -> bool) :
  forallb f (map Z.of_nat (seq 0 n)) = true ->
  forall z, 0 <= z < Z.of_nat n -> f z = true.
Proof.
  intros H z Hz. rewrite forallb_forall in H. apply H.
  apply in_map_iff. exists (Z.to_nat z). split; [lia|].
  apply in_seq. lia.
Qed.

Lemma fmt_0d_2_small (m : Z) : 0 <= m < 100 -> fmt_0d 2 m = two_digits m.
Proof.
  intros H. apply String.eqb_eq.
  apply (below_cases 100 (fun m => String.eqb (fmt_0d 2 m) (two_digits m))); [|exact H].
  vm_compute. reflexivity.
Qed.

Lemma fmt_0d_4_century (y : Z) :
  0 <= y < 100 -> fmt_0d 4 (y + 2000) = String "2" (String "0" (two_digits y)).
Proof.
  intros H. apply String.eqb_eq.
  apply (below_cases 100
           (fun y => String.eqb (fmt_0d 4 (y + 2000)) (String "2" (String "0" (two_digits y)))));
    [|exact H].
  vm_compute. reflexivity.
Qed.

Lemma dec_fold_nonneg (s : string) :
  all_chars is_digit s = true -> forall acc, 0 <= acc -> 0 <= dec_fold acc s.
Proof.
  induction s as [|c r IH]; simpl; intros H acc Hacc; [exact Hacc|].
  apply andb_true_iff in H as [Hc Hr]. apply IH; [exact Hr|].
  pose proof (digit_val_range c Hc). lia.
Qed.

Lemma dec_value_nonneg (s : string) : is_digits s = true -> 0 <= dec_value s.
Proof. intros H%is_digits_all. now apply dec_fold_nonneg. Qed.

(** The date [20yy-mm-dd], each of the three numbers below 100. *)
Definition iso_date_20 (yy mm dd : Z) : string :=
  String "2" (String "0" (two_digits yy)) +:+ "-" +:+ two_digits mm +:+ "-" +:+ two_digits dd.

(** What [parse_date_mdy] returns on three fields that [int] reads as
    [m], [d] and [y]. *)
Definition rendered_date (m d y : Z) : string :=
  fmt_0d 4 (if y <? 100 then y + 2000 else y) +:+ "-" +:+ fmt_0d 2 m +:+ "-" +:+ fmt_0d 2 d.

(** The string splits on ['/'] into exactly three fields that [int] reads. *)
Definition three_numeric_fields (s : string) : Prop :=
  exists p0 p1 p2 m d y,
    split_char "/" (strip s) = [p0; p1; p2] /\
    py_int p0 = Ok m /\ py_int p1 = Ok d /\ py_int p2 = Ok y.

Lemma parse_date_mdy_fields (s p0 p1 p2 : string) (m d y : Z) :
  split_char "/" (strip s) = [p0; p1; p2] ->
  py_int p0 = Ok m -> py_int p1 = Ok d -> py_int p2 = Ok y ->
  parse_date_mdy s = Ok (rendered_date m d y).
Proof.
  intros Hs H0 H1 H2. unfold parse_date_mdy. rewrite Hs. simpl.
  rewrite H0, H1, H2. reflexivity.
Qed.

Lemma parse_date_mdy_fails (s : string) :
  ~ three_numeric_fields s -> exists msg, parse_date_mdy s = Raise (ValueError msg).
Proof.
  intros Hno. unfold parse_date_mdy.
  destruct (split_char "/" (strip s)) as [|p0 [|p1 [|p2 [|p3 l]]]] eqn:Hs; try (eexists; reflexivity).
  destruct (py_int p0) as [m|[msg]] eqn:H0; simpl; [|eauto].
  destruct (py_int p1) as [d|[msg]] eqn:H1; simpl; [|eauto].
  destruct (py_int p2) as [y|[msg]] eqn:H2; simpl; [|eauto].
  exfalso. apply Hno. exists p0, p1, p2, m, d, y. auto.
Qed.

Lemma split_three_digit_fields (sm sd sy : string) :
  is_digits sm = true -> is_digits sd = true -> is_digits sy = true ->
  split_char "/" (strip (sm +:+ "/" +:+ sd +:+ "/" +:+ sy)) = [sm; sd; sy].
Proof.
  intros Hm Hd Hy.
  pose proof (is_digits_all _ Hm) as Am.
  pose proof (is_digits_all _ Hd) as Ad.
  pose proof (is_digits_all _ Hy) as Ay.
  rewrite strip_no_space.
  - app_simpl.
    rewrite split_char_app by (now apply digits_without).
    rewrite split_char_app by (now apply digits_without).
    rewrite split_char_none by (now apply digits_without).
    reflexivity.
  - unfold no_space. rewrite !all_chars_append. app_simpl.
    fold (no_space sm) (no_space sd) (no_space sy).
    now rewrite !digits_no_space.
Qed.

(** A field of at most 4300 digits, the longest literal [int] accepts. *)
Definition short_digits (s : string) : bool :=
  is_digits s && (Z.of_nat (String.length s) <=? INT_MAX_STR_DIGITS).

Lemma short_digits_split (s : string) :
  short_digits s = true ->
  is_digits s = true /\ Z.of_nat (String.length s) <= INT_MAX_STR_DIGITS.
Proof. unfold short_digits. now intros [H1 H2%Z.leb_le]%andb_true_iff. Qed.

(** C9. A date [M/D/YY] whose three fields are numeric and whose year is
    below 100 parses to the year [2000+YY], the month and the day, zero-padded,
    joined by dashes (for fields written in at most 4300 digits each, with
    month and day below 100, this is exactly [20YY-MM-DD]); a string that
    does not split on ['/'] into exactly three fields that [int] accepts
    raises [ValueError]. *)
Theorem C9_parse_date_mdy :
  (forall sm sd sy,
      short_digits sm = true -> short_digits sd = true -> short_digits sy = true ->
      dec_value sm < 100 -> dec_value sd < 100 -> dec_value sy < 100 ->
      parse_date_mdy (sm +:+ "/" +:+ sd +:+ "/" +:+ sy) =
        Ok (iso_date_20 (dec_value sy) (dec_value sm) (dec_value sd))) /\
  (forall s p0 p1 p2 m d y,
      split_char "/" (strip s) = [p0; p1; p2] ->
      py_int p0 = Ok m -> py_int p1 = Ok d -> py_int p2 = Ok y -> y < 100 ->
      parse_date_mdy s =
        Ok (fmt_0d 4 (y + 2000) +:+ "-" +:+ fmt_0d 2 m +:+ "-" +:+ fmt_0d 2 d)) /\
  (forall s, ~ three_numeric_fields s ->
      exists msg, parse_date_mdy s = Raise (ValueError msg)).
Proof.
  split; [|split].
  - intros sm sd sy [Hm Km]%short_digits_split [Hd Kd]%short_digits_split
      [Hy Ky]%short_digits_split Lm Ld Ly.
    rewrite (parse_date_mdy_fields _ sm sd sy (dec_value sm) (dec_value sd) (dec_value sy))
      by (auto using split_three_digit_fields, py_int_digits).
    unfold rendered_date, iso_date_20.
    pose proof (dec_value_nonneg _ Hm). pose proof (dec_value_nonneg _ Hd).
    pose proof (dec_value_nonneg _ Hy).
    destruct (Z.ltb_spec (dec_value sy) 100); [|lia].
    rewrite fmt_0d_4_century, !fmt_0d_2_small by lia. reflexivity.
  - intros s p0 p1 p2 m d y Hs H0 H1 H2 Hy.
    rewrite (parse_date_mdy_fields _ _ _ _ _ _ _ Hs H0 H1 H2).
    unfold rendered_date. destruct (Z.ltb_spec y 100); [reflexivity | lia].
  - apply parse_date_mdy_fails.
Qed.

Lemma C9_parse_date_mdy_witness :
  parse_date_mdy "1/5/26" = Ok "2026-01-05" /\
  parse_date_mdy " 12/31/99 " = Ok "2099-12-31" /\
  (exists msg, parse_date_mdy "1/5" = Raise (ValueError msg)).
Proof.
  destruct C9_parse_date_mdy as (A & B & C).
  split; [|split].
  - apply (A "1" "5" "26"); vm_compute; reflexivity.
  - apply (B " 12/31/99 " "12" "31" "99" 12 31 99); vm_compute; reflexivity.
  - apply (C "1/5"). intros (p0 & p1 & p2 & m & d & y & H & _). vm_compute in H. discriminate.
Defined.

(** Two strings that [int] refuses: a field led by the separator FS, which
    [str.strip] would remove but [int] does not skip, and a field of 4301
    digits. *)
Lemma parse_date_mdy_refused :
  parse_date_mdy ("1/" +:+ String (char_of 28) "5/26") =
    Raise (ValueError "invalid literal for int() with base 10: '\x1c5'") /\
  exists msg, parse_date_mdy (zeros 4300 +:+ "1/5/26") = Raise (ValueError msg).
Proof. split; [vm_compute; reflexivity | eexists; vm_compute; reflexivity]. Qed.

(** ** The description classifier *)

Lemma lower_ascii_space (c : ascii) : is_space (lower_ascii c) = is_space c.
Proof.
  unfold lower_ascii.
  destruct ((65 <=? code c) && (code c <=? 90)) eqn:E; [|reflexivity].
  apply andb_true_iff in E as [E1%Z.leb_le E2%Z.leb_le].
  unfold is_space. rewrite code_char_of by lia.
  repeat match goal with
         | |- context [?a <=? ?b] => destruct (Z.leb_spec a b); try lia
         end; reflexivity.
Qed.

Lemma lower_lstrip (s : string) : lower (lstrip s) = lstrip (lower s).
Proof.
  induction s as [|c r IH]; simpl; [reflexivity|].
  rewrite lower_ascii_space. destruct (is_space c); [exact IH | reflexivity].
Qed.

Lemma lower_rstrip (s : string) : lower (rstrip s) = rstrip (lower s).
Proof.
  induction s as [|c r IH]; simpl; [reflexivity|].
  rewrite <- IH, lower_ascii_space.
  destruct (rstrip r); simpl; [destruct (is_space c)|]; reflexivity.
Qed.

Lemma lower_strip (s : string) : lower (strip s) = strip (lower s).
Proof. unfold strip. now rewrite lower_rstrip, lower_lstrip. Qed.

Lemma find_ext_in {A} (f g : A -> bool) (l : list A) :
  Forall (fun x => f x = g x) l -> find f l = find g l.
Proof.
  induction 1 as [|x l Hx _ IH]; simpl; [reflexivity|].
  rewrite Hx, IH. reflexivity.
Qed.

Lemma table_get_find {V} (t : table V) (k : string) :
  table_get t k = option_map snd (find (fun kv => String.eqb (fst kv) k) t).
Proof.
  induction t as [|[k' v] r IH]; simpl; [reflexivity|].
  destruct (String.eqb k' k); [reflexivity | exact IH].
Qed.

Lemma first_startswith_find {V} (t : table V) (l : string) :
  first_startswith t l = option_map snd (find (fun kv => String.prefix (fst kv) l) t).
Proof.
  induction t as [|[k' v] r IH]; simpl; [reflexivity|].
  unfold startswith. destruct (String.prefix k' l); [reflexivity | exact IH].
Qed.

Lemma map_description_in_policy {V} (t : table V) (desc : string) :
  lowercase_keys t -> map_description_in t desc = classify_spec t desc.
Proof.
  intros Hk. unfold map_description_in, classify_spec.
  rewrite <- lower_strip, table_get_find, first_startswith_find.
  rewrite (find_ext_in (fun kv => ci_eqb (fst kv) (strip desc))
             (fun kv => String.eqb (fst kv) (lower (strip desc)))).
  2:{ eapply Forall_impl; [exact Hk|]. intros kv E. unfold ci_eqb. now rewrite E. }
  rewrite (find_ext_in (fun kv => ci_prefixb (fst kv) (strip desc))
             (fun kv => String.prefix (fst kv) (lower (strip desc)))).
  2:{ eapply Forall_impl; [exact Hk|]. intros kv E. unfold ci_prefixb. now rewrite E. }
  destruct (find _ t); reflexivity.
Qed.

Lemma DESCRIPTION_MAP_lowercase : lowercase_keys DESCRIPTION_MAP.
Proof. unfold lowercase_keys, DESCRIPTION_MAP. repeat constructor. Qed.

(** C5. The classifier returns the rule whose keyphrase equals the trimmed
    description case-insensitively when there is one, and otherwise the first
    rule in declaration order whose keyphrase is a case-insensitive prefix of
    it ([classify_spec]); this holds for the table of the program and for any
    table of lowercase keyphrases, whatever their order. *)
Theorem C5_map_description_policy :
  (forall desc, map_description desc = classify_spec DESCRIPTION_MAP desc) /\
  (forall (V : Type) (t : table V) desc,
      lowercase_keys t -> map_description_in t desc = classify_spec t desc).
Proof.
  split.
  - intros desc. apply map_description_in_policy, DESCRIPTION_MAP_lowercase.
  - intros V t desc. apply map_description_in_policy.
Qed.

(** An exact match wins over an earlier, shorter keyphrase that is a prefix. *)
Lemma C5_map_description_policy_witness :
  map_description_in [("llm", 1); ("llm coding", 2)] " LLM Coding " = Some 2 /\
  map_description_in [("llm", 1); ("llm coding", 2)] "LLM Coding class" = Some 1.
Proof.
  destruct C5_map_description_policy as [_ H].
  split.
  - rewrite (H Z [("llm", 1); ("llm coding", 2)] " LLM Coding ").
    + vm_compute. reflexivity.
    + repeat constructor.
  - rewrite (H Z [("llm", 1); ("llm coding", 2)] "LLM Coding class").
    + vm_compute. reflexivity.
    + repeat constructor.
Defined.

(** ** Vendor resolution *)

Lemma add_aliases_truthy (canonical : string) (aliases : list string)
    (m : gmap string string) :
  truthy canonical = true ->
  map_Forall (fun _ c => truthy c = true) m ->
  map_Forall (fun _ c => truthy c = true) (add_aliases canonical aliases m).
Proof.
  intros Hc. unfold add_aliases. revert m.
  induction aliases as [|a r IH]; intros m Hm; simpl; [exact Hm|].
  apply IH. now apply map_Forall_insert_2.
Qed.

Lemma rebuild_alias_map_in_truthy (t : table (list string)) (db : vendor_db) :
  Forall (fun kv => truthy (fst kv) = true) t ->
  map_Forall (fun _ c => truthy c = true) (alias_map (rebuild_alias_map_in t db)).
Proof.
  intros Ht. unfold rebuild_alias_map_in. simpl.
  assert (G : forall m : gmap string string,
             map_Forall (fun _ c => truthy c = true) m ->
             map_Forall (fun _ c => truthy c = true)
               (fold_left (fun m '(canonical, aliases) => add_aliases canonical aliases m) t m)).
  { induction Ht as [|[c al] r Hc _ IH]; intros m Hm; simpl; [exact Hm|].
    apply IH. now apply add_aliases_truthy. }
  apply G, map_Forall_empty.
Qed.

Lemma VENDOR_ALIASES_truthy : Forall (fun kv => truthy (fst kv) = true) VENDOR_ALIASES.
Proof. unfold VENDOR_ALIASES. repeat constructor. Qed.

Lemma alias_truthy (db : vendor_db) (k canonical : string) :
  alias_map (rebuild_alias_map db) !! k = Some canonical -> truthy canonical = true.
Proof.
  intros H.
  exact (rebuild_alias_map_in_truthy VENDOR_ALIASES db VENDOR_ALIASES_truthy k canonical H).
Qed.

Lemma msg_kinds_differ (raw canonical : string) :
  msg_no_alias raw <> msg_not_created canonical.
Proof. unfold msg_no_alias, msg_not_created. app_simpl. discriminate. Qed.

(** C6, as the code has it. The vendor-lookup command tells the two
    failures apart: a raw name with no alias entry ends the command with
    status 1 and the message [msg_no_alias]; a raw name whose canonical name
    has no entry in the local store ends it with status 1 and the different
    message [msg_not_created]. The resolver of the report compiler,
    [lookup_vendor_id], answers [None] in both cases. *)
Theorem C6_vendor_lookup_kinds (w : world) (raw : string) :
  let db := rebuild_alias_map (default empty_db (disk w)) in
  (alias_map db !! lower raw = None ->
     cmd_vendor_lookup raw w = (Exited 1, said w (Text (msg_no_alias raw))) /\
     lookup_vendor_id raw db = None) /\
  (forall canonical,
     alias_map db !! lower raw = Some canonical ->
     vendors db !! canonical = None ->
     cmd_vendor_lookup raw w = (Exited 1, said w (Text (msg_not_created canonical))) /\
     msg_not_created canonical <> msg_no_alias raw /\
     lookup_vendor_id raw db = None).
Proof.
  intros db. split.
  - intros H. split.
    + unfold cmd_vendor_lookup, cbind, load_vendor_db. fold db. rewrite H. reflexivity.
    + unfold lookup_vendor_id. now rewrite H.
  - intros canonical H Hv.
    pose proof (alias_truthy _ _ _ H) as Ht.
    split; [|split].
    + unfold cmd_vendor_lookup, cbind, load_vendor_db. fold db. rewrite H, Ht.
      cbn [negb]. rewrite Hv. reflexivity.
    + intros E. symmetry in E. exact (msg_kinds_differ _ _ E).
    + unfold lookup_vendor_id. now rewrite H, Ht, Hv.
Qed.

Definition blank_world : world :=
  {| server := fun _ _ => URLError "unreachable"; trace := []; stdout := [];
     stderr := []; disk := None |}.

Lemma C6_vendor_lookup_kinds_witness :
  cmd_vendor_lookup "totally unknown vendor" blank_world =
    (Exited 1, said blank_world (Text "No alias mapping for: totally unknown vendor")) /\
  cmd_vendor_lookup "mitchray TA" blank_world =
    (Exited 1, said blank_world
       (Text "Canonical vendor 'Discord / Mitch Ray' not yet created (no ID in local DB)")).
Proof.
  split.
  - apply (proj1 (C6_vendor_lookup_kinds blank_world "totally unknown vendor")).
    vm_compute. reflexivity.
  - apply (proj2 (C6_vendor_lookup_kinds blank_world "mitchray TA") "Discord / Mitch Ray");
      vm_compute; reflexivity.
Defined.

Definition row_unknown_vendor : row :=
  {| row_Date := "1/5/26"; row_Vendor := "totally unknown vendor";
     row_Description := "LLM coding"; row_Expense_Total := "$30.00" |}.

Definition row_uncreated_vendor : row :=
  {| row_Date := "1/5/26"; row_Vendor := "mitchray TA";
     row_Description := "LLM coding"; row_Expense_Total := "$30.00" |}.

(** C6 as stated fails on [lookup_vendor_id]: with an empty local store, a
    raw name without alias and a raw name whose canonical name is not in the
    store both resolve to [None], and the report compiler reports both rows
    with the same "not found in DB" error. *)
Lemma C6_counterexample :
  let db := rebuild_alias_map empty_db in
  alias_map db !! lower "totally unknown vendor" = None /\
  alias_map db !! lower "mitchray TA" = Some "Discord / Mitch Ray" /\
  vendors db !! "Discord / Mitch Ray" = None /\
  lookup_vendor_id "totally unknown vendor" db = None /\
  lookup_vendor_id "mitchray TA" db = None /\
  option_map errors
    (match compile_rows db 1 [row_unknown_vendor; row_uncreated_vendor] compile_init with
     | Ok st => Some st | Raise _ => None end) =
    Some ["Row 1: vendor 'totally unknown vendor' not found in DB";
          "Row 2: vendor 'mitchray TA' not found in DB"].
Proof. vm_compute. repeat split; reflexivity. Qed.

(** ** The pay-bill workflow *)

Lemma api_request_ok (m : http_method) (path org : string) (b : option body)
    (w : world) (j : reply_json) :
  server w (trace w)
    {| rq_method := m; rq_path := path; rq_org := org; rq_body := b |} = Reply j ->
  api_request m path org b w =
    (Return j, requested w {| rq_method := m; rq_path := path; rq_org := org; rq_body := b |}).
Proof. intros H. unfold api_request. rewrite H. reflexivity. Qed.

Lemma api_request_fails (m : http_method) (path org : string) (b : option body)
    (w : world) (f : reply) (msg : string) :
  server w (trace w)
    {| rq_method := m; rq_path := path; rq_org := org; rq_body := b |} = f ->
  failure_line f = Some msg ->
  api_request m path org b w =
    (Exited 1,
     complained
       (requested w {| rq_method := m; rq_path := path; rq_org := org; rq_body := b |}) msg).
Proof.
  intros H Hf. unfold api_request. rewrite H.
  destruct f; simpl in Hf; [discriminate| |]; injection Hf as <-; reflexivity.
Qed.


Definition payment_down : list request -> request -> reply :=
  fun tr _ =>
    match tr with
    | [] => Reply {| rj_vendors := []; rj_id := Some 100; rj_name := None;
                     rj_description := Some "Office chairs" |}
    | _ => URLError "timed out"
    end.

Definition pay_bill_example : pay_bill_args :=
  {| pb_org := "1"; pb_date := "2026-01-05"; pb_desc := "Office chairs";
     pb_lines := Some [ {| ul_debit := Some "250.00"; ul_rest := "accountId: 47" |} ];
     pb_vendor := Some "42"; pb_ref := None; pb_payment_date := None;
     pb_cash_account := None; pb_dry_run := false |}.

Definition world_payment_down : world :=
  {| server := payment_down; trace := []; stdout := []; stderr := []; disk := None |}.


(** ** Dry runs and the remote service *)

Lemma quiet_ret {A} (a : A) : quiet (ret a).
Proof. intros w. reflexivity. Qed.

Lemma quiet_sys_exit {A} (s : Z) : quiet (@sys_exit A s).
Proof. intros w. reflexivity. Qed.

Lemma quiet_raise {A} (e : exn) : quiet (@raise A e).
Proof. intros w. reflexivity. Qed.

Lemma quiet_lift {A} (r : result A) : quiet (lift r).
Proof. destruct r; [apply quiet_ret | apply quiet_raise]. Qed.

Lemma quiet_print_out (p : printed) : quiet (print_out p).
Proof. intros w. reflexivity. Qed.

Lemma quiet_print (s : string) : quiet (print s).
Proof. intros w. reflexivity. Qed.

Lemma quiet_eprint (s : string) : quiet (eprint s).
Proof. intros w. reflexivity. Qed.

Lemma quiet_load : quiet load_vendor_db.
Proof. intros w. reflexivity. Qed.

Lemma quiet_save (db : vendor_db) : quiet (save_vendor_db db).
Proof. intros w. reflexivity. Qed.

Lemma quiet_cbind {A B} (c : cmd A) (k : A -> cmd B) :
  quiet c -> (forall a, quiet (k a)) -> quiet (cbind c k).
Proof.
  intros Hc Hk w. unfold cbind. specialize (Hc w).
  destruct (c w) as [[a|s|e] w1]; simpl in *; [|assumption|assumption].
  rewrite (Hk a w1). exact Hc.
Qed.

Lemma quiet_eprint_all (l : list string) : quiet (eprint_all l).
Proof.
  induction l as [|s r IH]; simpl; [apply quiet_ret|].
  apply quiet_cbind; [apply quiet_eprint | intros _; exact IH].
Qed.

Lemma quiet_print_all (l : list string) : quiet (print_all l).
Proof.
  induction l as [|s r IH]; simpl; [apply quiet_ret|].
  apply quiet_cbind; [apply quiet_print | intros _; exact IH].
Qed.

Create HintDb quiet.

#[local] Hint Resolve quiet_ret quiet_sys_exit quiet_raise quiet_lift quiet_print_out
  quiet_print quiet_eprint quiet_load quiet_save quiet_eprint_all quiet_print_all : quiet.

Ltac quiet_step :=
  match goal with
  | |- quiet (cbind _ _) => apply quiet_cbind; [|intros ?]
  | |- quiet (match ?x with _ => _ end) => destruct x
  | |- quiet (if ?b then _ else _) => destruct b
  | |- quiet _ => solve [auto with quiet]
  end.

Lemma import_report_dry_run_quiet (args : import_report_args) (file : option (list row)) :
  ir_dry_run args = true -> quiet (cmd_import_report args file).
Proof.
  intros Hdry. unfold cmd_import_report. rewrite Hdry.
  repeat quiet_step.
Qed.

Lemma pay_bill_dry_run_quiet (args : pay_bill_args) :
  pb_dry_run args = true -> quiet (cmd_pay_bill args).
Proof.
  intros Hdry. unfold cmd_pay_bill. destruct (pb_lines args); [|repeat quiet_step].
  apply quiet_cbind; [auto with quiet|intros total].
  apply quiet_cbind; [auto with quiet|intros vendor_id].
  apply quiet_cbind; [auto with quiet|intros cash_acct].
  rewrite Hdry. repeat quiet_step.
Qed.

Lemma import_vendor_dry_run_quiet (args : import_vendors_args)
    (existing : gmap string vendor_json) (name : string) (st : import_state) :
  iv_dry_run args = true -> quiet (import_vendor args existing name st).
Proof.
  intros Hdry. unfold import_vendor. rewrite Hdry.
  destruct (existing !! lower name); [repeat quiet_step|].
  destruct (vendors (is_db st) !! name); repeat quiet_step.
Qed.

Lemma import_vendors_loop_dry_run_quiet (args : import_vendors_args)
    (existing : gmap string vendor_json) (names : list string) (st : import_state) :
  iv_dry_run args = true -> quiet (import_vendors_loop args existing names st).
Proof.
  intros Hdry. revert st. induction names as [|n r IH]; intros st; simpl.
  - apply quiet_ret.
  - apply quiet_cbind; [now apply import_vendor_dry_run_quiet | intros st'; apply IH].
Qed.

Lemma api_request_trace (m : http_method) (path org : string) (b : option body) (w : world) :
  trace (snd (api_request m path org b w)) =
    trace w ++ [{| rq_method := m; rq_path := path; rq_org := org; rq_body := b |}].
Proof. unfold api_request. destruct (server w _ _); reflexivity. Qed.


Definition dry_import_report : import_report_args :=
  {| ir_org := "1"; ir_desc := "Expense report"; ir_dry_run := true; ir_file := "jan.tsv" |}.

Definition dry_import_vendors : import_vendors_args :=
  {| iv_org := "1"; iv_dry_run := true |}.

Definition dry_pay_bill : pay_bill_args :=
  {| pb_org := "1"; pb_date := "2026-01-05"; pb_desc := "Office chairs";
     pb_lines := Some [ {| ul_debit := Some "250.00"; ul_rest := "accountId: 47" |} ];
     pb_vendor := Some "42"; pb_ref := None; pb_payment_date := None;
     pb_cash_account := None; pb_dry_run := true |}.



(** ** The bulk vendor import *)

Lemma set_vendor_same (db : vendor_db) (name : string) (e : vendor_entry) :
  vendors db !! name = Some e -> set_vendor db name e = db.
Proof.
  intros H. destruct db as [vs am]. unfold set_vendor. simpl in *.
  f_equal. now apply insert_id.
Qed.

Lemma adopted_set_vendor existing db name e n :
  (forall v, existing !! lower name = Some v ->
             e = {| ve_id := Some (vj_id v); ve_name := Some name |}) ->
  adopted existing db n -> adopted existing (set_vendor db name e) n.
Proof.
  intros He Hn v Hv. unfold set_vendor. simpl.
  destruct (decide (name = n)) as [->|Hne].
  - rewrite lookup_insert_eq. f_equal. now apply He.
  - rewrite lookup_insert_ne by exact Hne. now apply Hn.
Qed.

Lemma stored_set_vendor db name e n :
  stored db n -> stored (set_vendor db name e) n.
Proof.
  unfold stored, set_vendor. simpl. intros H.
  destruct (decide (name = n)) as [->|Hne].
  - rewrite lookup_insert_eq. eauto.
  - now rewrite lookup_insert_ne.
Qed.

Ltac split7 := split; [|split; [|split; [|split; [|split; [|split]]]]].

(** One iteration of the loop that returns. *)
Lemma import_vendor_returns args existing name st w st' w' :
  import_vendor args existing name st w = (Return st', w') ->
  adopted existing (is_db st') name /\
  (iv_dry_run args = false -> stored (is_db st') name) /\
  (forall n, adopted existing (is_db st) n -> adopted existing (is_db st') n) /\
  (forall n, stored (is_db st) n -> stored (is_db st') n) /\
  alias_map (is_db st') = alias_map (is_db st) /\
  server w' = server w /\ disk w' = disk w.
Proof.
  unfold import_vendor.
  destruct (existing !! lower name) as [v|] eqn:Hex.
  - intros H. injection H as <- <-. simpl.
    split7; try reflexivity.
    + intros v' Hv'. unfold set_vendor. simpl. rewrite lookup_insert_eq. congruence.
    + intros _. unfold stored, set_vendor. simpl. rewrite lookup_insert_eq. eauto.
    + intros n. apply adopted_set_vendor. intros v' Hv'. congruence.
    + intros n. apply stored_set_vendor.
  - destruct (vendors (is_db st) !! name) as [e|] eqn:Hloc.
    + intros H. injection H as <- <-. simpl.
      split7; try reflexivity; try tauto.
      * intros v Hv. congruence.
      * intros _. unfold stored. rewrite Hloc. eauto.
    + destruct (iv_dry_run args) eqn:Hdry.
      * intros H. injection H as <- <-. simpl.
        split7; try reflexivity; try tauto.
        -- intros v Hv. congruence.
        -- discriminate.
      * unfold cbind, api_request.
        destruct (server w (trace w) _) as [j|c m|rsn]; simpl; try discriminate.
        intros H. injection H as <- <-. simpl.
        split7; try reflexivity.
        -- intros v Hv. congruence.
        -- intros _. unfold stored, set_vendor. simpl. rewrite lookup_insert_eq. eauto.
        -- intros n. apply adopted_set_vendor. intros v' Hv'. congruence.
        -- intros n. apply stored_set_vendor.
Qed.

Lemma import_vendors_loop_returns args existing names :
  forall st w st' w',
  import_vendors_loop args existing names st w = (Return st', w') ->
  (forall n, In n names -> adopted existing (is_db st') n) /\
  (iv_dry_run args = false -> forall n, In n names -> stored (is_db st') n) /\
  (forall n, adopted existing (is_db st) n -> adopted existing (is_db st') n) /\
  (forall n, stored (is_db st) n -> stored (is_db st') n) /\
  alias_map (is_db st') = alias_map (is_db st) /\
  server w' = server w /\ disk w' = disk w.
Proof.
  induction names as [|name rest IH]; intros st w st' w'; simpl.
  - intros H. injection H as <- <-. repeat split; auto; intros; contradiction.
  - unfold cbind.
    destruct (import_vendor args existing name st w) as [[st1|s|e] w1] eqn:Hstep;
      try discriminate.
    intros Hrest.
    apply import_vendor_returns in Hstep as (A1 & S1 & PA1 & PS1 & AM1 & SV1 & D1).
    apply IH in Hrest as (A2 & S2 & PA2 & PS2 & AM2 & SV2 & D2).
    split7.
    + intros n [<-|Hn]; [apply PA2, A1 | now apply A2].
    + intros Hdry n [<-|Hn]; [apply PS2, S1, Hdry | now apply S2].
    + intros n Hn. apply PA2, PA1, Hn.
    + intros n Hn. apply PS2, PS1, Hn.
    + congruence.
    + congruence.
    + congruence.
Qed.

(** The loop over names that are all adopted (and, outside a dry run, all
    stored): nothing is requested, nothing is created, the store does not
    change. *)
Lemma import_vendors_loop_settled args existing names :
  forall db c s w,
  (forall n, In n names -> adopted existing db n) ->
  (iv_dry_run args = false -> forall n, In n names -> stored db n) ->
  exists k w',
    import_vendors_loop args existing names
      {| is_db := db; is_created := c; is_skipped := s |} w =
      (Return {| is_db := db; is_created := c; is_skipped := s + k |}, w') /\
    trace w' = trace w /\ disk w' = disk w /\ server w' = server w /\
    (iv_dry_run args = false -> k = Z.of_nat (length names)).
Proof.
  induction names as [|name rest IH]; intros db c s w HA HS.
  - exists 0, w. simpl. rewrite Z.add_0_r. repeat split; auto.
  - assert (HA' : forall n, In n rest -> adopted existing db n) by (intros; apply HA; now right).
    assert (HS' : iv_dry_run args = false -> forall n, In n rest -> stored db n)
      by (intros; apply HS; [assumption | now right]).
    cbn [import_vendors_loop]. unfold cbind, import_vendor.
    destruct (existing !! lower name) as [v|] eqn:Hex.
    + rewrite set_vendor_same by (apply HA; [now left | exact Hex]).
      cbn.
      match goal with |- context [import_vendors_loop _ _ _ _ ?w1] =>
        destruct (IH db c (s + 1) w1 HA' HS') as (k & w' & Hrun & Ht & Hd & Hs & Hk) end.
      exists (1 + k), w'. rewrite Hrun, Z.add_assoc.
      repeat split; auto. intros Hdry; rewrite (Hk Hdry); cbn [length]; lia.
    + destruct (vendors db !! name) as [e|] eqn:Hloc; cbn [is_db]; rewrite Hloc.
      * cbn.
        match goal with |- context [import_vendors_loop _ _ _ _ ?w1] =>
          destruct (IH db c (s + 1) w1 HA' HS') as (k & w' & Hrun & Ht & Hd & Hs & Hk) end.
        exists (1 + k), w'. rewrite Hrun, Z.add_assoc.
        repeat split; auto. intros Hdry; rewrite (Hk Hdry); cbn [length]; lia.
      * destruct (iv_dry_run args) eqn:Hdry.
        -- cbn.
           match goal with |- context [import_vendors_loop _ _ _ _ ?w1] =>
             destruct (IH db c s w1 HA' HS') as (k & w' & Hrun & Ht & Hd & Hs & Hk) end.
           exists k, w'. rewrite Hrun. repeat split; auto. discriminate.
        -- exfalso. destruct (HS eq_refl name (or_introl eq_refl)) as [e He].
           congruence.
Qed.

Lemma insert_sorted_In (x y : string) (l : list string) :
  In y (insert_sorted x l) <-> y = x \/ In y l.
Proof.
  induction l as [|z r IH]; simpl; [intuition|].
  destruct (String.leb x z); simpl; [intuition|]. rewrite IH. intuition.
Qed.

Lemma sorted_In (y : string) (l : list string) : In y (sorted l) <-> In y l.
Proof.
  induction l as [|x r IH]; simpl; [reflexivity|].
  rewrite insert_sorted_In, IH. intuition.
Qed.

Lemma insert_sorted_length (x : string) (l : list string) :
  length (insert_sorted x l) = S (length l).
Proof.
  induction l as [|z r IH]; simpl; [reflexivity|].
  destruct (String.leb x z); simpl; [reflexivity | now rewrite IH].
Qed.

Lemma sorted_length (l : list string) : length (sorted l) = length l.
Proof.
  induction l as [|x r IH]; simpl; [reflexivity|].
  now rewrite insert_sorted_length, IH.
Qed.

Lemma rebuild_alias_map_in_fixed (t : table (list string)) (db : vendor_db) :
  alias_map db = alias_map (rebuild_alias_map_in t empty_db) ->
  rebuild_alias_map_in t db = db.
Proof.
  destruct db as [vs am]. unfold rebuild_alias_map_in. simpl. now intros ->.
Qed.

(** What a run of the import that returns leaves on disk. *)
Lemma import_vendors_in_returns t file args w j r w1 :
  server w (trace w) (list_vendors_request (iv_org args)) = Reply j ->
  import_vendors_in t file args w = (Return r, w1) ->
  exists db1,
    disk w1 = Some db1 /\ server w1 = server w /\
    alias_map db1 = alias_map (rebuild_alias_map_in t empty_db) /\
    (forall n, In n (table_keys t) -> adopted (existing_of (rj_vendors j)) db1 n) /\
    (iv_dry_run args = false -> forall n, In n (table_keys t) -> stored db1 n).
Proof.
  intros Hget. unfold import_vendors_in, list_vendors_request in *.
  unfold cbind at 1. rewrite (api_request_ok _ _ _ _ _ j Hget).
  unfold cbind at 1, load_vendor_db at 1. cbn [fst snd].
  unfold cbind at 1.
  match goal with |- context [import_vendors_loop ?a ?e ?n ?s ?w0] =>
    destruct (import_vendors_loop a e n s w0) as [[st1|s1|e1] w0'] eqn:Hloop end;
    try discriminate.
  apply import_vendors_loop_returns in Hloop as (A & S & _ & _ & AM & SV & D).
  intros H. injection H as <- <-. cbn.
  exists (is_db st1). split; [|split; [|split; [|split]]].
  - reflexivity.
  - exact SV.
  - exact AM.
  - intros n Hn. apply A, sorted_In, Hn.
  - intros Hdry n Hn. apply S; [exact Hdry | apply sorted_In, Hn].
Qed.

(** A run of the import on a store in which every canonical name is adopted
    (and, outside a dry run, stored). *)
Lemma import_vendors_in_settled t file args w j db1 :
  server w (trace w) (list_vendors_request (iv_org args)) = Reply j ->
  disk w = Some db1 ->
  alias_map db1 = alias_map (rebuild_alias_map_in t empty_db) ->
  (forall n, In n (table_keys t) -> adopted (existing_of (rj_vendors j)) db1 n) ->
  (iv_dry_run args = false -> forall n, In n (table_keys t) -> stored db1 n) ->
  exists skipped w2,
    import_vendors_in t file args w = (Return (0, skipped), w2) /\
    trace w2 = trace w ++ [list_vendors_request (iv_org args)] /\
    disk w2 = disk w /\
    (iv_dry_run args = false -> skipped = Z.of_nat (length t)).
Proof.
  intros Hget Hdisk Ham HA HS. unfold import_vendors_in, list_vendors_request in *.
  unfold cbind at 1. rewrite (api_request_ok _ _ _ _ _ j Hget).
  unfold cbind at 1, load_vendor_db at 1. cbn [fst snd].
  replace (disk (requested w _)) with (Some db1) by (now rewrite <- Hdisk).
  change (default empty_db (Some db1)) with db1.
  rewrite (rebuild_alias_map_in_fixed t db1 Ham).
  unfold cbind at 1.
  match goal with |- context [import_vendors_loop ?a ?e ?n ?s ?w0] =>
    destruct (import_vendors_loop_settled a e n db1 0 0 w0) as (k & w' & Hrun & Ht & Hd & Hs & Hk)
  end.
  { intros n Hn. apply HA, sorted_In, Hn. }
  { intros Hdry n Hn. apply HS; [exact Hdry | apply sorted_In, Hn]. }
  rewrite Hrun. cbn.
  eexists _, _. split; [reflexivity|]. cbn. split; [exact Ht|]. split; [now rewrite Hdisk|].
  intros Hdry. rewrite (Hk Hdry), sorted_length. unfold table_keys. now rewrite length_map.
Qed.


(** A remote service with one vendor, "amazon", that numbers what it
    creates; its vendor listing never changes. *)
Definition vendor_service : list request -> request -> reply :=
  fun tr rq =>
    match rq_method rq with
    | GET =>
        Reply {| rj_vendors := [ {| vj_id := 7; vj_name := "amazon" |} ];
                 rj_id := None; rj_name := None; rj_description := None |}
    | POST =>
        Reply {| rj_vendors := [];
                 rj_id := Some (100 + Z.of_nat (length tr));
                 rj_name := match rq_body rq with
                            | Some (VendorBody n) => Some n
                            | _ => None
                            end;
                 rj_description := None |}
    end.

Definition vendor_world : world :=
  {| server := vendor_service; trace := []; stdout := []; stderr := []; disk := None |}.

Definition real_import_vendors : import_vendors_args :=
  {| iv_org := "1"; iv_dry_run := false |}.


Lemma import_vendors_loop_dry_run_returns args existing names :
  iv_dry_run args = true ->
  forall st w, exists st' w',
    import_vendors_loop args existing names st w = (Return st', w').
Proof.
  intros Hdry. induction names as [|name rest IH]; intros st w; simpl; [eauto|].
  unfold cbind, import_vendor. rewrite Hdry.
  destruct (existing !! lower name); [cbn; apply IH|].
  destruct (vendors (is_db st) !! name); cbn; apply IH.
Qed.



(** ** The lines of a compiled report *)

Lemma compile_row_lines db i r st st' :
  compile_row db i r st = Ok st' ->
  Forall row_line (debit_lines st) -> Forall row_line (debit_lines st').
Proof.
  unfold compile_row.
  destruct (_ || _); [intros H; injection H as <-; auto|].
  destruct (parse_date_mdy _) as [date_str|e]; [|intros H; injection H as <-; auto].
  destruct (parse_money (strip (row_Expense_Total r))) as [amount|e] eqn:Hm;
    cbn [rbind]; [|discriminate].
  assert (Hsee : debit_lines (see_date st date_str) = debit_lines st).
  { unfold see_date. destruct (str_gt _ _); reflexivity. }
  destruct (map_description _) as [[[acct_id subcat_id] func_class]|];
    [|intros H; injection H as <-; cbn; now rewrite Hsee].
  destruct (negb _); intros H; injection H as <-; cbn; rewrite Hsee; [auto|].
  intros Hst. apply Forall_app. split; [exact Hst|].
  constructor; [|constructor]. split; [reflexivity|]. cbn. eauto.
Qed.

Lemma compile_rows_lines db rows : forall i st st',
  compile_rows db i rows st = Ok st' ->
  Forall row_line (debit_lines st) -> Forall row_line (debit_lines st').
Proof.
  induction rows as [|r rest IH]; intros i st st'; simpl.
  - intros H; injection H as <-; auto.
  - destruct (compile_row db i r st) as [st1|e] eqn:H1; cbn [rbind]; [|discriminate].
    intros H2 Hst. eapply IH; [exact H2|]. eapply compile_row_lines; eauto.
Qed.

Lemma compile_report_lines db desc rows errs c :
  compile_report db desc rows = Ok (errs, c) ->
  Forall row_line (c_debit_lines c) /\
  li_debit (c_credit_line c) = "0.00" /\
  total_debit (c_debit_lines c) = Ok (c_total c) /\
  li_credit (c_credit_line c) = format_2f (c_total c).
Proof.
  unfold compile_report.
  destruct (compile_rows _ 1 rows compile_init) as [st|e] eqn:Hrows; cbn [rbind]; [|discriminate].
  unfold assemble.
  destruct (total_debit (debit_lines st)) as [total|e] eqn:Ht; cbn [rbind]; [|discriminate].
  intros H. injection H as <- <-. cbn.
  split; [|auto].
  eapply compile_rows_lines; [exact Hrows | constructor].
Qed.


(** A local store in which "Anthropic (Claude)" has the remote id 42. *)
Definition store_claude : vendor_db :=
  {| vendors := {[ "Anthropic (Claude)" :=
                     {| ve_id := Some 42; ve_name := Some "Anthropic (Claude)" |} ]};
     alias_map := ∅ |}.

Definition row_claude (amount : string) : row :=
  {| row_Date := "1/5/26"; row_Vendor := "Claude";
     row_Description := "LLM coding"; row_Expense_Total := amount |}.



(** ** Row errors *)

Definition report_two_bad_rows : list row :=
  [ row_claude "abc";
    {| row_Date := "13-01-26"; row_Vendor := "Claude";
       row_Description := "LLM coding"; row_Expense_Total := "$5.00" |} ].

Definition world_claude : world :=
  {| server := fun _ _ => URLError "unreachable"; trace := []; stdout := [];
     stderr := []; disk := Some store_claude |}.


(** ** Rounding *)

Lemma U_split : U = 2 ^ 53 * V.
Proof. vm_compute. reflexivity. Qed.

Lemma V_large : 100 <= V.
Proof. vm_compute. discriminate. Qed.

Lemma OVERFLOW_split : OVERFLOW = 2 ^ 1024 * U.
Proof. vm_compute. reflexivity. Qed.

Lemma rne_div_bound (a b : Z) :
  0 <= a -> 0 < b -> 0 <= rne_div a b /\ 2 * Z.abs (rne_div a b * b - a) <= b.
Proof.
  intros Ha Hb. unfold rne_div.
  pose proof (Z.div_mod a b ltac:(lia)) as E.
  pose proof (Z.mod_pos_bound a b Hb) as R.
  pose proof (Z.div_pos a b Ha Hb) as Q.
  destruct (Z.ltb_spec (2 * (a mod b)) b); [split; [lia | nia]|].
  destruct (Z.ltb_spec b (2 * (a mod b))); [split; [lia | nia]|].
  destruct (Z.even (a / b)); split; try lia; nia.
Qed.

(** The nearest integer is the only one strictly within a half. *)
Lemma rne_div_unique (a b c : Z) :
  0 <= a -> 0 < b -> 2 * Z.abs (c * b - a) < b -> rne_div a b = c.
Proof.
  intros Ha Hb Hc. unfold rne_div.
  pose proof (Z.div_mod a b ltac:(lia)) as E.
  pose proof (Z.mod_pos_bound a b Hb) as R.
  assert (C : c = a / b \/ c = a / b + 1) by nia.
  destruct (Z.ltb_spec (2 * (a mod b)) b).
  - destruct C as [->| ->]; [reflexivity | nia].
  - destruct (Z.ltb_spec b (2 * (a mod b))).
    + destruct C as [->| ->]; [nia | reflexivity].
    + exfalso. destruct C as [->| ->]; nia.
Qed.

Lemma round_units_bound (P q : Z) :
  0 <= P -> 0 < q ->
  0 <= round_units P q /\
  (2 ^ 53 * Z.abs (round_units P q * q - P) <= P \/
   2 * Z.abs (round_units P q * q - P) <= q).
Proof.
  intros HP Hq. unfold round_units.
  set (t := P / q). set (j := Z.max 0 (Z.log2 t - 52)).
  assert (Hj : 0 <= j) by lia.
  assert (Hpow : 0 < 2 ^ j) by (apply Z.pow_pos_nonneg; lia).
  destruct (rne_div_bound P (q * 2 ^ j) HP ltac:(nia)) as [Hn Hb].
  set (r := rne_div P (q * 2 ^ j)) in *.
  split; [nia|].
  destruct (Z.le_gt_cases (Z.log2 t) 52) as [Hs|Hl].
  - right. replace j with 0 in * by lia. rewrite Z.pow_0_r in *.
    replace (r * 1 * q) with (r * (q * 1)) by ring. lia.
  - left. assert (Ej : j = Z.log2 t - 52) by lia.
    assert (Ht : 0 < t).
    { destruct (Z.lt_ge_cases 0 t) as [?|Hn0]; [assumption|].
      rewrite (Z.log2_nonpos t Hn0) in Hl. lia. }
    pose proof (proj1 (Z.log2_spec t Ht)) as Hlog.
    assert (Hsplit : 2 ^ Z.log2 t = 2 ^ j * 2 ^ 52).
    { rewrite <- Z.pow_add_r by lia. f_equal. lia. }
    pose proof (Z.mul_div_le P q Hq) as Hqt. fold t in Hqt.
    replace (r * 2 ^ j * q) with (r * (q * 2 ^ j)) by ring.
    set (d := Z.abs (r * (q * 2 ^ j) - P)) in *.
    change (2 ^ 53) with (2 ^ 52 * 2).
    assert (H52 : 0 < 2 ^ 52) by reflexivity.
    nia.
Qed.

Lemma pow53 : 2 ^ 53 = 9007199254740992.
Proof. vm_compute. reflexivity. Qed.

Lemma V_pos : 0 < V.
Proof. pose proof V_large. lia. Qed.

Lemma U_large : 2 ^ 53 * 100 <= U.
Proof. rewrite U_split. pose proof V_large. rewrite pow53. lia. Qed.

Lemma OVERFLOW_large : 2 ^ 53 * U <= OVERFLOW.
Proof.
  rewrite OVERFLOW_split. apply Z.mul_le_mono_nonneg_r.
  - pose proof U_large. rewrite pow53 in *. lia.
  - apply Z.pow_le_mono_r; lia.
Qed.

(** Conversion of [c] hundredths, [0 <= c < 2^51]. *)
Lemma mk_float_cents (neg : bool) (c : Z) :
  0 <= c < 2 ^ 51 ->
  exists n, mk_float neg (c * U) 100 = Ffin neg n /\ 0 <= n /\
    Z.abs (100 * n - U * c) <= c * V.
Proof.
  intros Hc. unfold mk_float.
  pose proof V_large as HV. pose proof U_split as HU. rewrite pow53 in HU.
  assert (HU0 : 0 < U) by lia.
  destruct (round_units_bound (c * U) 100 ltac:(nia) ltac:(lia)) as [Hn Hb].
  set (n := round_units (c * U) 100) in *.
  assert (He : Z.abs (100 * n - U * c) <= c * V).
  { replace (n * 100 - c * U) with (100 * n - U * c) in Hb by ring.
    destruct Hb as [Hb|Hb].
    - rewrite pow53 in Hb. nia.
    - destruct (Z.eq_dec c 0) as [->|Hc0]; [lia | nia]. }
  assert (Hov : n < OVERFLOW).
  { pose proof OVERFLOW_large as HO. rewrite pow53 in HO.
    change (2 ^ 51) with 2251799813685248 in Hc. nia. }
  destruct (Z.leb_spec OVERFLOW n); [lia|].
  exists n. auto.
Qed.

(** Addition of two finite doubles whose exact sum [z] is far from the
    overflow threshold: the result is finite and within [|z| * 2^-53]. *)
Lemma fadd_finite (a b : bool) (n m : Z) :
  0 <= n -> 0 <= m ->
  2 * Z.abs (signed a n + signed b m) < OVERFLOW ->
  exists s k, fadd (Ffin a n) (Ffin b m) = Ffin s k /\ 0 <= k /\
    2 ^ 53 * Z.abs (signed s k - (signed a n + signed b m))
      <= Z.abs (signed a n + signed b m).
Proof.
  intros Hn Hm Hov. unfold fadd.
  set (z := signed a n + signed b m) in *.
  destruct (Z.eqb_spec z 0) as [Hz|Hz].
  - exists (a && b), 0. rewrite Hz. split; [reflexivity|].
    split; [lia|]. unfold signed. destruct (a && b); simpl; lia.
  - unfold mk_float.
    destruct (round_units_bound (Z.abs z) 1 ltac:(lia) ltac:(lia)) as [Hk Hb].
    set (k := round_units (Z.abs z) 1) in *.
    rewrite Z.mul_1_r in Hb. rewrite pow53 in *.
    assert (Hclose : 9007199254740992 * Z.abs (k - Z.abs z) <= Z.abs z) by lia.
    destruct (Z.leb_spec OVERFLOW k); [lia|].
    exists (z <? 0), k. split; [reflexivity|]. split; [exact Hk|].
    unfold signed at 1. destruct (Z.ltb_spec z 0); lia.
Qed.

Lemma sum_abs_nonneg (cs : list Z) : 0 <= sum_abs cs.
Proof. induction cs; simpl; lia. Qed.

(** The arithmetic of one step of the summation, with [u = p * v] for the
    unit and [e = (K + 1) * v] for the error of one rounding. *)
Lemma sum_step_arith (u v p K N j a b z' C c S r : Z) :
  p = 2 ^ 53 -> u = p * v -> 100 <= v ->
  0 <= K -> N * (K + 1) < 2 ^ 51 -> 0 <= j -> j + 1 <= N ->
  Z.abs C <= S -> 0 <= r -> S + (Z.abs c + r) <= K ->
  Z.abs (100 * a - u * C) <= 2 * j * ((K + 1) * v) ->
  Z.abs (100 * b - u * c) <= Z.abs c * v ->
  100 * Z.abs (a + b) <= u * (K + 1) /\
  (p * Z.abs (z' - (a + b)) <= Z.abs (a + b) ->
   Z.abs (100 * z' - u * (C + c)) <= 2 * (j + 1) * ((K + 1) * v)).
Proof.
  intros Hp Hu Hv HK HN Hj HjN HC Hr HS Ha Hb.
  rewrite pow53 in Hp. change (2 ^ 51) with 2251799813685248 in HN.
  set (e := (K + 1) * v) in *.
  assert (Ee : e = K * v + v) by (unfold e; ring).
  assert (F1 : Z.abs c * v <= K * v) by (apply Z.mul_le_mono_nonneg_r; lia).
  assert (F2 : 0 <= (2 * N - 2 * j - 1) * e).
  { apply Z.mul_nonneg_nonneg; [lia|]. rewrite Ee.
    assert (0 <= K * v) by (apply Z.mul_nonneg_nonneg; lia). lia. }
  assert (F3 : N * (K + 1) * v <= 2251799813685247 * v)
    by (apply Z.mul_le_mono_nonneg_r; lia).
  assert (F3' : N * e = N * (K + 1) * v) by (unfold e; ring).
  assert (F4 : Z.abs (u * (C + c)) <= u * K).
  { rewrite Z.abs_mul. rewrite (Z.abs_eq u) by lia.
    apply Z.mul_le_mono_nonneg_l; lia. }
  assert (F5 : u * (K + 1) = p * e) by (unfold e; rewrite Hu; ring).
  clearbody e.
  assert (G : 100 * Z.abs (a + b) <= u * (K + 1)).
  { assert (T : 100 * (a + b) = (100 * a - u * C) + (100 * b - u * c) + u * (C + c)) by ring.
    assert (T2 : 100 * Z.abs (a + b) = Z.abs (100 * (a + b))) by lia.
    rewrite T2, T.
    assert (Q : u * (K + 1) = u * K + u) by ring. rewrite Q.
    assert (Q2 : (2 * N - 2 * j - 1) * e = 2 * (N * e) - 2 * j * e - e) by ring.
    lia. }
  split; [exact G|].
  intros Hclose.
  assert (T3 : 100 * z' - u * (C + c) =
               100 * (z' - (a + b)) + (100 * a - u * C) + (100 * b - u * c)) by ring.
  rewrite T3.
  assert (Q3 : 2 * (j + 1) * e = 2 * j * e + 2 * e) by ring. rewrite Q3.
  rewrite F5 in G. lia.
Qed.

(** Left-to-right summation of doubles that stand for hundredths: with at
    most [N] terms whose absolute values total at most [K] hundredths, and
    [N * (K + 1) < 2^51], the sum stays within [2 * N * (K + 1) * V] of the
    exact total, less than half a hundredth. *)
Lemma fold_fadd_bound (K N : Z) :
  0 <= K -> N * (K + 1) < 2 ^ 51 ->
  forall xs cs, Forall2 approx xs cs ->
  forall sa na C S j,
    0 <= na -> 0 <= j -> Z.abs C <= S -> S + sum_abs cs <= K ->
    j + Z.of_nat (length xs) <= N ->
    Z.abs (100 * signed sa na - U * C) <= 2 * j * ((K + 1) * V) ->
    exists st nt,
      fold_left fadd xs (Ffin sa na) = Ffin st nt /\ 0 <= nt /\
      Z.abs (100 * signed st nt - U * (C + sum_Z cs)) <= 2 * N * ((K + 1) * V).
Proof.
  intros HK HN xs cs Hxs.
  induction Hxs as [|x c xs cs Hx Hrest IH]; intros sa na C S j Hna Hj HC HS Hlen Herr.
  - exists sa, na. cbn [fold_left length sum_abs sum_Z] in *. rewrite Z.add_0_r.
    split; [reflexivity|]. split; [exact Hna|].
    assert (0 <= (2 * N - 2 * j) * ((K + 1) * V)).
    { apply Z.mul_nonneg_nonneg; [lia|]. apply Z.mul_nonneg_nonneg; [lia|].
      pose proof V_large. lia. }
    assert ((2 * N - 2 * j) * ((K + 1) * V) =
            2 * N * ((K + 1) * V) - 2 * j * ((K + 1) * V)) by ring.
    lia.
  - destruct Hx as (b & m & -> & Hm & Hxc).
    cbn [fold_left length sum_abs sum_Z] in *.
    pose proof (sum_abs_nonneg cs) as Hsa.
    destruct (sum_step_arith U V (2 ^ 53) K N j (signed sa na) (signed b m) 0 C c S
                (sum_abs cs) eq_refl U_split V_large HK HN Hj ltac:(lia) HC Hsa HS Herr Hxc)
      as [Hz _].
    destruct (fadd_finite sa b na m Hna Hm) as (s & k & Hadd & Hk & Hclose).
    { pose proof OVERFLOW_large as HO. pose proof U_split as HU.
      pose proof V_large as HV. rewrite pow53 in *.
      change (2 ^ 51) with 2251799813685248 in HN.
      assert (U * (K + 1) <= U * 2251799813685248).
      { apply Z.mul_le_mono_nonneg_l; [lia|].
        destruct (Z.le_gt_cases (K + 1) 2251799813685248) as [?|Hbig]; [assumption|].
        exfalso. assert (1 <= N) by lia.
        assert (1 * (K + 1) <= N * (K + 1)) by (apply Z.mul_le_mono_nonneg_r; lia).
        lia. }
      lia. }
    rewrite Hadd.
    destruct (sum_step_arith U V (2 ^ 53) K N j (signed sa na) (signed b m) (signed s k)
                C c S (sum_abs cs) eq_refl U_split V_large HK HN Hj ltac:(lia) HC Hsa HS
                Herr Hxc) as [_ Hnext].
    specialize (Hnext Hclose).
    destruct (IH s k (C + c) (S + Z.abs c) (j + 1)) as (st & nt & Hfold & Hnt & Hfin);
      try lia.
    exists st, nt. split; [exact Hfold|]. split; [exact Hnt|].
    replace (C + (c + sum_Z cs)) with (C + c + sum_Z cs) by ring. exact Hfin.
Qed.

(** ** Two-decimal strings *)

Lemma dec_fold_append (a : Z) (s1 s2 : string) :
  dec_fold a (s1 +:+ s2) = dec_fold (dec_fold a s1) s2.
Proof.
  revert a. induction s1 as [|c r IH]; intros a; app_simpl; [reflexivity | apply IH].
Qed.

Lemma truthy_append_l (s1 s2 : string) : truthy s2 = true -> truthy (s1 +:+ s2) = true.
Proof. destruct s1; app_simpl; auto. Qed.

Lemma show_digits_spec (fuel : nat) :
  forall n acc, 0 <= n < 10 ^ (Z.of_nat fuel + 1) ->
  exists ds, show_digits fuel n acc = ds +:+ acc /\
             is_digits ds = true /\ dec_value ds = n.
Proof.
  induction fuel as [|f IH]; intros n acc Hn.
  - exists (String (digit_char n) EmptyString).
    change (10 ^ (Z.of_nat 0 + 1)) with 10 in Hn.
    cbn [show_digits]. rewrite Z.mod_small by lia. split; [reflexivity|].
    unfold is_digits, dec_value. cbn [truthy all_chars dec_fold].
    rewrite digit_char_is_digit, digit_val_char by lia. split; [reflexivity | lia].
  - cbn [show_digits].
    pose proof (Z.mod_pos_bound n 10 ltac:(lia)) as Hmod.
    pose proof (Z.div_mod n 10 ltac:(lia)) as Hdiv.
    destruct (Z.ltb_spec n 10) as [Hlt|Hge].
    + exists (String (digit_char (n mod 10)) EmptyString). split; [reflexivity|].
      unfold is_digits, dec_value. cbn [truthy all_chars dec_fold].
      rewrite digit_char_is_digit, digit_val_char by lia.
      split; [reflexivity|]. rewrite Z.mod_small; lia.
    + destruct (IH (n / 10) (String (digit_char (n mod 10)) acc)) as (ds & E & Hd & Hv).
      { split; [apply Z.div_pos; lia|].
        apply Z.div_lt_upper_bound; [lia|].
        replace (Z.of_nat (S f) + 1) with (Z.succ (Z.of_nat f + 1)) in Hn by lia.
        rewrite Z.pow_succ_r in Hn by lia. lia. }
      exists (ds +:+ String (digit_char (n mod 10)) EmptyString).
      split; [rewrite E, append_assoc; reflexivity|].
      split.
      * unfold is_digits in *. apply andb_true_iff in Hd as [_ Hall].
        rewrite truthy_append_l by reflexivity.
        rewrite all_chars_append, Hall. cbn [all_chars].
        rewrite digit_char_is_digit by lia. reflexivity.
      * unfold dec_value in *. rewrite dec_fold_append, Hv. cbn [dec_fold].
        rewrite digit_val_char by lia. lia.
Qed.

Lemma show_nat_spec (n : Z) :
  0 <= n -> is_digits (show_nat n) = true /\ dec_value (show_nat n) = n.
Proof.
  intros Hn. unfold show_nat.
  destruct (show_digits_spec (Z.to_nat (Z.log2 n)) n EmptyString) as (ds & E & Hd & Hv).
  - split; [exact Hn|].
    pose proof (Z.log2_nonneg n) as Hl. rewrite Z2Nat.id by exact Hl.
    destruct (Z.eq_dec n 0) as [->|Hn0].
    + apply Z.pow_pos_nonneg; lia.
    + pose proof (proj2 (Z.log2_spec n ltac:(lia))) as Hs.
      replace (Z.succ (Z.log2 n)) with (Z.log2 n + 1) in Hs by lia.
      assert (2 ^ (Z.log2 n + 1) <= 10 ^ (Z.log2 n + 1)) by (apply Z.pow_le_mono_l; lia).
      lia.
  - rewrite E, append_nil_r. auto.
Qed.

Lemma two_digits_spec (r : Z) :
  0 <= r < 100 ->
  is_digits (two_digits r) = true /\
  (forall acc, dec_fold acc (two_digits r) = acc * 100 + r) /\
  String.length (two_digits r) = 2%nat.
Proof.
  intros Hr. unfold two_digits, is_digits.
  assert (0 <= r / 10 <= 9).
  { split; [apply Z.div_pos; lia | apply Z.lt_succ_r, Z.div_lt_upper_bound; lia]. }
  pose proof (Z.mod_pos_bound r 10 ltac:(lia)).
  pose proof (Z.div_mod r 10 ltac:(lia)).
  cbn [truthy all_chars dec_fold String.length].
  rewrite !digit_char_is_digit, !digit_val_char by lia.
  split; [reflexivity|]. split; [intros acc; lia | reflexivity].
Qed.

Lemma scan_number_show_cents (c : Z) :
  0 <= c -> scan_number (show_cents c) = Some (c, 2%nat, EmptyString).
Proof.
  intros Hc. unfold scan_number, show_cents.
  destruct (show_nat_spec (c / 100) ltac:(apply Z.div_pos; lia)) as [Hd Hv].
  pose proof (Z.mod_pos_bound c 100 ltac:(lia)) as Hmod.
  destruct (two_digits_spec (c mod 100) Hmod) as (Htd & Hfold & Hlen).
  rewrite (scan_digits_from_digits (show_nat (c / 100)) _ 0 Hd)
    by (split; reflexivity).
  cbn [Ascii.eqb Bool.eqb]. cbv iota.
  rewrite <- (append_nil_r (two_digits (c mod 100))) at 1.
  rewrite (scan_digits_from_digits _ EmptyString _ Htd I).
  rewrite Hfold, Hlen. fold (dec_value (show_nat (c / 100))). rewrite Hv.
  pose proof (Z.div_mod c 100 ltac:(lia)). do 3 f_equal. lia.
Qed.

Lemma show_cents_head (c : Z) :
  0 <= c -> exists d r, show_cents c = String d r /\ is_digit d = true.
Proof.
  intros Hc. unfold show_cents.
  destruct (show_nat_spec (c / 100) ltac:(apply Z.div_pos; lia)) as [Hd _].
  unfold is_digits in Hd. destruct (show_nat (c / 100)) as [|d r]; [discriminate|].
  exists d, (r +:+ String "." (two_digits (c mod 100))). split; [reflexivity|].
  cbn in Hd. now apply andb_true_iff in Hd as [Hd _].
Qed.

Lemma show_cents_no_space (c : Z) : 0 <= c -> no_space (show_cents c) = true.
Proof.
  intros Hc. unfold show_cents, no_space.
  destruct (show_nat_spec (c / 100) ltac:(apply Z.div_pos; lia)) as [Hd _].
  destruct (two_digits_spec (c mod 100) (Z.mod_pos_bound c 100 ltac:(lia))) as (Htd & _ & _).
  rewrite all_chars_append. cbn [all_chars].
  fold (no_space (show_nat (c / 100))) (no_space (two_digits (c mod 100))).
  rewrite !digits_no_space by (now apply is_digits_all). reflexivity.
Qed.

Lemma split_sign_money (neg : bool) (c : Z) :
  0 <= c -> split_sign (money_string neg c) = (neg, show_cents c).
Proof.
  intros Hc. unfold money_string, split_sign. destruct neg; [reflexivity|].
  destruct (show_cents_head c Hc) as (d & r & E & Hd). rewrite E.
  rewrite !(digit_neq d) by (assumption || reflexivity). reflexivity.
Qed.

Lemma money_cents_string (neg : bool) (c : Z) :
  0 <= c -> money_cents (money_string neg c) = Some (signed neg c).
Proof.
  intros Hc. unfold money_cents. rewrite (split_sign_money neg c Hc).
  now rewrite (scan_number_show_cents c Hc).
Qed.

Lemma lower_ascii_digit (d : ascii) : is_digit d = true -> lower_ascii d = d.
Proof.
  intros H%is_digit_code. unfold lower_ascii.
  destruct (Z.leb_spec 65 (code d)); [lia | reflexivity].
Qed.

(** [float] reads back a two-decimal string as the correctly rounded value
    of its hundredths. *)
Lemma py_float_money (neg : bool) (c : Z) :
  0 <= c -> py_float (money_string neg c) = Ok (mk_float neg (c * U) 100).
Proof.
  intros Hc. unfold py_float.
  rewrite strip_c_no_space.
  2:{ unfold money_string. destruct neg; [|now apply show_cents_no_space].
      unfold no_space. cbn [all_chars]. fold (no_space (show_cents c)).
      now rewrite show_cents_no_space. }
  rewrite (split_sign_money neg c Hc).
  destruct (show_cents_head c Hc) as (d & r & E & Hd).
  assert (Hl : exists r', lower (show_cents c) = String d r').
  { rewrite E. cbn [lower]. rewrite (lower_ascii_digit d Hd). eauto. }
  destruct Hl as (r' & ->).
  assert (Hne : forall x s, is_digit x = false -> String.eqb (String d r') (String x s) = false).
  { intros x s Hx. cbn [String.eqb]. now rewrite (digit_neq d x Hd Hx). }
  rewrite !Hne by reflexivity. cbn [orb].
  rewrite (scan_number_show_cents c Hc). reflexivity.
Qed.

(** ** Finite floats have a non-negative magnitude *)

Lemma scan_more_nonneg_len (len : nat) :
  forall s acc k, (String.length s <= len)%nat -> 0 <= acc ->
  0 <= fst (fst (scan_more acc k s)).
Proof.
  induction len as [|len IH]; intros s acc k Hlen Hacc.
  - destruct s; [exact Hacc | cbn in Hlen; lia].
  - destruct s as [|c r]; [exact Hacc|]. cbn [scan_more]. cbn in Hlen.
    destruct (is_digit c) eqn:Hc.
    + apply IH; [lia|]. pose proof (digit_val_range c Hc). lia.
    + destruct (Ascii.eqb c "_"); [|exact Hacc].
      destruct r as [|d r']; [exact Hacc|]. cbn in Hlen.
      destruct (is_digit d) eqn:Hd; [|exact Hacc].
      apply IH; [lia|]. pose proof (digit_val_range d Hd). lia.
Qed.

Lemma scan_digits_from_nonneg (acc : Z) (s : string) v k r :
  0 <= acc -> scan_digits_from acc s = Some (v, k, r) -> 0 <= v.
Proof.
  intros Hacc. unfold scan_digits_from. destruct s as [|c s]; [discriminate|].
  destruct (is_digit c) eqn:Hc; [|discriminate].
  intros H. injection H as H.
  pose proof (scan_more_nonneg_len (String.length s) s (acc * 10 + digit_val c) 1
                (Nat.le_refl _)) as Hn.
  rewrite H in Hn. apply Hn. pose proof (digit_val_range c Hc). lia.
Qed.

Lemma scan_number_nonneg (s : string) m k r :
  scan_number s = Some (m, k, r) -> 0 <= m.
Proof.
  unfold scan_number.
  destruct (scan_digits_from 0 s) as [[[ip n] r1]|] eqn:E1.
  - pose proof (scan_digits_from_nonneg 0 s ip n r1 ltac:(lia) E1) as Hip.
    destruct r1 as [|c r2]; [intros H; injection H as <- _ _; exact Hip|].
    destruct (Ascii.eqb c "."); [|intros H; injection H as <- _ _; exact Hip].
    destruct (scan_digits_from ip r2) as [[[m' k'] r3]|] eqn:E2.
    + intros H; injection H as <- _ _.
      exact (scan_digits_from_nonneg ip r2 m' k' r3 Hip E2).
    + intros H; injection H as <- _ _; exact Hip.
  - destruct s as [|c r2]; [discriminate|].
    destruct (Ascii.eqb c "."); [|discriminate].
    intros H. exact (scan_digits_from_nonneg 0 r2 m k r ltac:(lia) H).
Qed.

Lemma mk_float_nonneg (neg : bool) (P q : Z) s n :
  0 <= P -> 0 < q -> mk_float neg P q = Ffin s n -> 0 <= n.
Proof.
  intros HP Hq. unfold mk_float.
  destruct (round_units_bound P q HP Hq) as [Hn _].
  destruct (OVERFLOW <=? round_units P q); [discriminate|].
  intros H. injection H as _ <-. exact Hn.
Qed.

Lemma U_pos : 0 < U.
Proof. pose proof U_large. rewrite pow53 in *. lia. Qed.

Lemma of_decimal_nonneg (neg : bool) (m e : Z) s n :
  0 <= m -> of_decimal neg m e = Ffin s n -> 0 <= n.
Proof.
  intros Hm. unfold of_decimal. pose proof U_pos.
  destruct (0 <=? e) eqn:He.
  - apply mk_float_nonneg; [|lia].
    apply Z.leb_le in He.
    assert (0 < 10 ^ e) by (apply Z.pow_pos_nonneg; lia). nia.
  - apply mk_float_nonneg; [nia|].
    apply Z.leb_gt in He. apply Z.pow_pos_nonneg; lia.
Qed.

Lemma py_float_nonneg (s : string) neg n :
  py_float s = Ok (Ffin neg n) -> 0 <= n.
Proof.
  unfold py_float. destruct (split_sign (strip_c s)) as [sg u].
  destruct (_ || _); [discriminate|].
  destruct (String.eqb _ "nan"); [discriminate|].
  destruct (scan_number u) as [[[m k] r]|] eqn:E; [|discriminate].
  destruct (scan_exponent r) as [[e [|? ?]]|]; try discriminate.
  intros H. injection H as H.
  exact (of_decimal_nonneg _ _ _ _ _ (scan_number_nonneg _ _ _ _ E) H).
Qed.

(** ** The balance of a compiled report *)

Lemma parse_money_shape (s d : string) :
  parse_money s = Ok d ->
  d = money_string false 0 \/ exists t x, py_float t = Ok x /\ d = format_2f x.
Proof.
  unfold parse_money. destruct (negb _).
  - intros H. injection H as <-. left. vm_compute. reflexivity.
  - destruct (py_float _) as [x|e] eqn:E; cbn [rbind]; [|discriminate].
    intros H. injection H as <-. right. eauto.
Qed.

(** A debit written by the row loop that is a two-decimal string is read
    back by [float] as a finite double standing for its hundredths. *)
Lemma row_line_float (l : line_item) (k : Z) :
  row_line l -> money_cents (li_debit l) = Some k -> Z.abs k < 2 ^ 51 ->
  exists x, py_float (li_debit l) = Ok x /\ approx x k.
Proof.
  intros [_ [s Hs]] Hk Hbound.
  assert (Hms : exists neg c, 0 <= c /\ li_debit l = money_string neg c).
  { apply parse_money_shape in Hs as [E|(t & x & Hx & E)].
    - exists false, 0. split; [lia | exact E].
    - destruct x as [|neg|neg n].
      + rewrite E in Hk. vm_compute in Hk. discriminate.
      + rewrite E in Hk. destruct neg; vm_compute in Hk; discriminate.
      + pose proof (py_float_nonneg _ _ _ Hx) as Hn. pose proof U_pos.
        destruct (rne_div_bound (100 * n) U ltac:(lia) ltac:(lia)) as [Hc _].
        exists neg, (rne_div (100 * n) U). split; [exact Hc|]. rewrite E.
        unfold format_2f, money_string. reflexivity. }
  destruct Hms as (neg & c & Hc & E). rewrite E in *.
  rewrite (money_cents_string neg c Hc) in Hk. injection Hk as <-.
  assert (Hc51 : 0 <= c < 2 ^ 51) by (unfold signed in Hbound; destruct neg; lia).
  destruct (mk_float_cents neg c Hc51) as (n & Hmk & Hn & Herr).
  exists (Ffin neg n). split; [rewrite (py_float_money neg c Hc), Hmk; reflexivity|].
  exists neg, n. split; [reflexivity|]. split; [exact Hn|].
  unfold signed. destruct neg.
  - replace (100 * - n - U * - c) with (- (100 * n - U * c)) by ring.
    rewrite Z.abs_opp, Z.abs_opp, (Z.abs_eq c) by lia. exact Herr.
  - rewrite (Z.abs_eq c) by lia. exact Herr.
Qed.

Lemma abs_cents_nonneg (ss : list string) (K : Z) : abs_cents ss = Some K -> 0 <= K.
Proof.
  revert K. induction ss as [|s r IH]; intros K; cbn [abs_cents].
  - intros H. injection H as <-. lia.
  - destruct (money_cents s) as [a|]; [|discriminate].
    destruct (abs_cents r) as [b|]; [|discriminate].
    intros H. injection H as <-. specialize (IH b eq_refl). lia.
Qed.

Lemma row_lines_floats (lines : list line_item) :
  Forall row_line lines ->
  forall K, abs_cents (map li_debit lines) = Some K -> K < 2 ^ 51 ->
  exists xs cs,
    floats_of (map li_debit lines) = Ok xs /\ Forall2 approx xs cs /\
    sum_cents (map li_debit lines) = Some (sum_Z cs) /\
    sum_abs cs = K /\ length xs = length lines /\
    sum_cents (map li_credit lines) = Some 0.
Proof.
  induction 1 as [|l lines Hl Hrest IH]; intros K HK Hb.
  - exists [], []. cbn in *. injection HK as <-. repeat split; constructor.
  - cbn [map abs_cents] in HK.
    destruct (money_cents (li_debit l)) as [k|] eqn:Ek; [|discriminate].
    destruct (abs_cents (map li_debit lines)) as [K'|] eqn:EK; [|discriminate].
    injection HK as <-. pose proof (abs_cents_nonneg _ _ EK) as HK'.
    destruct (IH K' eq_refl ltac:(lia)) as (xs & cs & Hf & Ha & Hs & Hab & Hlen & Hcr).
    destruct (row_line_float l k Hl Ek ltac:(lia)) as (x & Hx & Hax).
    exists (x :: xs), (k :: cs).
    cbn [map floats_of sum_cents sum_Z sum_abs length].
    rewrite Hx, Hf, Ek, Hs, Hcr, Hab, Hlen. cbn [rbind].
    destruct Hl as [-> _].
    repeat split; try reflexivity. now constructor.
Qed.

Lemma sum_cents_app (a b : list string) (x y : Z) :
  sum_cents a = Some x -> sum_cents b = Some y -> sum_cents (a ++ b) = Some (x + y).
Proof.
  revert x. induction a as [|s r IH]; intros x; cbn [sum_cents app].
  - intros H. injection H as <-. now intros ->.
  - destruct (money_cents s) as [k|]; [|discriminate].
    destruct (sum_cents r) as [t|]; [|discriminate].
    intros H Hb. injection H as <-. rewrite (IH t eq_refl Hb). f_equal. lia.
Qed.

(** The rendering of a total that is within half a hundredth of [C]
    hundredths. *)
Lemma format_2f_total (s : bool) (n C : Z) :
  0 <= n -> 2 * Z.abs (100 * signed s n - U * C) < U ->
  money_cents (format_2f (Ffin s n)) = Some C.
Proof.
  intros Hn Hclose. pose proof U_pos as HU.
  assert (Hr : rne_div (100 * n) U = Z.abs C).
  { apply rne_div_unique; [lia | lia |].
    unfold signed in Hclose. destruct s; lia. }
  unfold format_2f. fold (money_string s (rne_div (100 * n) U)).
  rewrite Hr, money_cents_string by lia. f_equal.
  unfold signed in *. destruct s; [|nia]. nia.
Qed.



Definition report_beyond_precision : list row :=
  [row_claude "10000000000000000.00"; row_claude "0.01"].

